(** * Qiwu examples runner: a shallow embedding of [scripts/run_qiwu_examples.py]

    The launcher is a flat sequential script: it resolves a built executable,
    lists the YAML files below [resources/exps], asks the user for one of them
    and spawns the executable on it.  The embedding keeps that shape:

    - Python values the script manipulates ([str], [int], [pathlib] paths,
      dictionaries with three fixed keys) become Rocq data;
    - the environment the script observes (the location of the script, the
      directory tree, the behaviour of the spawned child) is a record [Env];
    - console input is the list of lines still waiting on standard input,
      console output and the other effects are a trace of [event]s;
    - exceptions, [SystemExit] included, are values of [exn] carried by
      [result].

    The [pathlib] flavour modelled is the POSIX one (separator [/],
    case-sensitive names), the interpreter CPython 3.11 with its default
    settings.  Characters are code points below 256. *)

From Stdlib Require Import List String Ascii ZArith NArith Lia Bool.
From Stdlib Require Import Sorted Permutation DecimalString DecimalZ.
From Stdlib Require DecimalFacts DecimalPos.
Import ListNotations.

Open Scope string_scope.
Open Scope Z_scope.

(** ** Exceptions and results *)

Inductive exn : Type :=
| ValueError
| IndexError
| EOFError
| SystemExit (code : Z)
| CalledProcessError (returncode : Z)
| FileNotFoundError
| OSError.

Inductive result (A : Type) : Type :=
| Ok (a : A)
| Raise (e : exn).

Arguments Ok {A} a.
Arguments Raise {A} e.

(** ** Python strings *)

Module PyStr.

Definition code (c : ascii) : N := N_of_ascii c.

(** [str.isspace] on one character, for code points below 256. *)
Definition isspace (c : ascii) : bool :=
  let n := code c in
  ((9 <=? n) && (n <=? 13) || (28 <=? n) && (n <=? 32)
   || (n =? 133) || (n =? 160))%N.

Fixpoint lstrip (s : string) : string :=
  match s with
  | EmptyString => EmptyString
  | String c s' => if isspace c then lstrip s' else s
  end.

Fixpoint rstrip (s : string) : string :=
  match s with
  | EmptyString => EmptyString
  | String c s' =>
      let r := rstrip s' in
      if isspace c && (r =? "")%string then EmptyString else String c r
  end.

(** [s.strip()] *)
Definition strip (s : string) : string := rstrip (lstrip s).

Definition lower_char (c : ascii) : ascii :=
  let n := code c in
  if ((65 <=? n) && (n <=? 90)
      || (192 <=? n) && (n <=? 222) && negb (n =? 215))%N
  then ascii_of_N (n + 32) else c.

(** [s.lower()] *)
Fixpoint lower (s : string) : string :=
  match s with
  | EmptyString => EmptyString
  | String c s' => String (lower_char c) (lower s')
  end.

(** [sep.join(l)] *)
Fixpoint join (sep : string) (l : list string) : string :=
  match l with
  | [] => ""
  | [x] => x
  | x :: l' => x ++ sep ++ join sep l'
  end.

(** [s * n] *)
Fixpoint repeat (s : string) (n : nat) : string :=
  match n with
  | O => ""
  | S n' => s ++ repeat s n'
  end.

(** [str(z)] and the [{z}] field of an f-string, for an integer. *)
Definition of_int (z : Z) : string := NilZero.string_of_int (Z.to_int z).

Definition digit_of (c : ascii) : option Z :=
  let n := code c in
  if ((48 <=? n) && (n <=? 57))%N then Some (Z.of_N (n - 48)) else None.

(** The digits that follow a first digit: each is a digit, or one
    underscore followed by a digit. *)
Fixpoint int_digits (acc : Z) (s : string) : option Z :=
  match s with
  | EmptyString => Some acc
  | String c s' =>
      if (c =? "_")%char then
        match s' with
        | EmptyString => None
        | String c' s'' =>
            match digit_of c' with
            | Some d => int_digits (10 * acc + d) s''
            | None => None
            end
        end
      else
        match digit_of c with
        | Some d => int_digits (10 * acc + d) s'
        | None => None
        end
  end.

Definition int_unsigned (s : string) : option Z :=
  match s with
  | EmptyString => None
  | String c s' =>
      match digit_of c with
      | Some d => int_digits d s'
      | None => None
      end
  end.

(** [sys.int_max_str_digits] at its default: the most digits [int] reads. *)
Definition int_max_str_digits : N := 4300.

(** The number of digit characters of [s]; signs and underscores do not
    count, leading zeros do. *)
Fixpoint digit_count (s : string) : N :=
  match s with
  | EmptyString => 0%N
  | String c s' =>
      match digit_of c with
      | Some _ => N.succ (digit_count s')
      | None => digit_count s'
      end
  end.

(** [int(s)] in base ten, as CPython 3.11 reads it; [None] stands for
    [ValueError].  Surrounding whitespace is skipped, one sign is allowed,
    then digits; a numeral of more than [int_max_str_digits] digits is
    refused, whatever its value. *)
Definition int (s : string) : option Z :=
  let t := strip s in
  if (int_max_str_digits <? digit_count t)%N then None
  else
    match t with
    | EmptyString => None
    | String c s' =>
        if (c =? "+")%char then int_unsigned s'
        else if (c =? "-")%char then option_map Z.opp (int_unsigned s')
        else int_unsigned (String c s')
    end.

(** [s.rfind(".")]: the index of the last dot. *)
Fixpoint rfind_dot (s : string) : option nat :=
  match s with
  | EmptyString => None
  | String c s' =>
      match rfind_dot s' with
      | Some i => Some (S i)
      | None => if (c =? ".")%char then Some O else None
      end
  end.

(** [fnmatch] for patterns made of literal characters, [?] and [*]. *)
Fixpoint fnmatch (pat : string) : string -> bool :=
  match pat with
  | EmptyString => fun name => (name =? "")%string
  | String p pat' =>
      if (p =? "*")%char then
        fix star (name : string) : bool :=
          fnmatch pat' name
          || match name with
             | EmptyString => false
             | String _ name' => star name'
             end
      else
        fun name =>
          match name with
          | EmptyString => false
          | String c name' =>
              ((p =? "?")%char || (p =? c)%char) && fnmatch pat' name'
          end
  end.

End PyStr.

(** ** [pathlib] paths *)

Record PurePath : Type := mkPath {
  root : string;          (* "" for a relative path, "/" for an absolute one *)
  parts : list string     (* the components after the root *)
}.

Module PurePath.

(** [p / name] for one relative component. *)
Definition truediv (p : PurePath) (name : string) : PurePath :=
  mkPath (root p) (parts p ++ [name]).

(** [p / q] for a path [q]: an absolute [q] replaces [p]. *)
Definition joinpath (p q : PurePath) : PurePath :=
  if (root q =? "")%string then mkPath (root p) (parts p ++ parts q) else q.

(** [p.parent]: the path without its last component. *)
Definition parent (p : PurePath) : PurePath :=
  mkPath (root p) (removelast (parts p)).

(** [p.name] *)
Definition name (p : PurePath) : string := last (parts p) "".

(** [p.stem]: the name up to its last dot, when that dot is neither the
    first nor the last character. *)
Definition stem (p : PurePath) : string :=
  let n := name p in
  match PyStr.rfind_dot n with
  | Some i =>
      if (0 <? i)%nat && (i <? String.length n - 1)%nat
      then substring 0 i n else n
  | None => n
  end.

(** [str(p)] *)
Definition str (p : PurePath) : string :=
  match root p, parts p with
  | EmptyString, [] => "."
  | r, ps => r ++ PyStr.join "/" ps
  end.

Fixpoint strip_prefix (pre l : list string) : option (list string) :=
  match pre, l with
  | [], _ => Some l
  | a :: pre', b :: l' =>
      if (a =? b)%string then strip_prefix pre' l' else None
  | _ :: _, [] => None
  end.

(** [p.relative_to(other)] *)
Definition relative_to (p other : PurePath) : result PurePath :=
  if (root p =? root other)%string then
    match strip_prefix (parts other) (parts p) with
    | Some r => Ok (mkPath "" r)
    | None => Raise ValueError
    end
  else Raise ValueError.

(** Lexicographic comparison of component lists, component by component. *)
Fixpoint compare_parts (l1 l2 : list string) : comparison :=
  match l1, l2 with
  | [], [] => Eq
  | [], _ :: _ => Lt
  | _ :: _, [] => Gt
  | a :: l1', b :: l2' =>
      match String.compare a b with
      | Eq => compare_parts l1' l2'
      | c => c
      end
  end.

(** [p < q] *)
Definition ltb (p q : PurePath) : bool :=
  match compare_parts (root p :: parts p) (root q :: parts q) with
  | Lt => true
  | _ => false
  end.

End PurePath.

Notation "p // s" := (PurePath.truediv p s) (at level 40, left associativity).

(** [sorted(l)] on paths: a stable insertion sort that only asks [<]. *)
Fixpoint insert_sorted (x : PurePath) (l : list PurePath) : list PurePath :=
  match l with
  | [] => [x]
  | y :: l' => if PurePath.ltb x y then x :: y :: l' else y :: insert_sorted x l'
  end.

Definition sorted (l : list PurePath) : list PurePath :=
  fold_left (fun acc x => insert_sorted x acc) l [].

(** ** The directory tree *)

#[local] Unset Elimination Schemes.

Inductive node : Type :=
| File
| Dir (entries : list (string * node)).

#[local] Set Elimination Schemes.

Fixpoint find_entry (n : string) (es : list (string * node)) : option node :=
  match es with
  | [] => None
  | (m, t) :: es' => if (n =? m)%string then Some t else find_entry n es'
  end.

Fixpoint lookup (t : node) (ps : list string) : option node :=
  match ps with
  | [] => Some t
  | p :: ps' =>
      match t with
      | File => None
      | Dir es =>
          match find_entry p es with
          | Some t' => lookup t' ps'
          | None => None
          end
      end
  end.

(** The paths below a directory whose names satisfy [keep], relative to it:
    the matching entries of the directory itself first, then those of each
    subdirectory in listing order. *)
Fixpoint rglob_rel (keep : string -> bool) (t : node) : list (list string) :=
  match t with
  | File => []
  | Dir es =>
      map (fun e => [fst e]) (filter (fun e => keep (fst e)) es)
      ++ flat_map (fun e => map (cons (fst e)) (rglob_rel keep (snd e))) es
  end.

(** ** Environment, state and effects *)

(** What [subprocess.run] meets when it starts the child. *)
Inductive proc_result : Type :=
| Exited (returncode : Z)     (* the child ran and ended with this status *)
| NoSuchFile                  (* the program to run is not there *)
| SpawnError.                 (* any other operating-system error *)

Record Env : Type := mkEnv {
  script_file : PurePath;                          (* [__file__] *)
  fs : node;                                       (* the directory tree, keyed by path components *)
  start_dir : PurePath;                            (* the working directory at start *)
  spawn : PurePath -> list string -> proc_result   (* working directory, argument vector *)
}.

Inductive event : Type :=
| Print (line : string)
| Prompt (text : string)
| Chdir (dir : PurePath)
| Spawn (dir : PurePath) (argv : list string).

Record state : Type := mkState {
  stdin : list string;        (* the lines not read yet *)
  cwd : PurePath
}.

(** Computations that read lines, move the working directory, leave a trace
    and may raise. *)
Definition M (A : Type) : Type := state -> list event * result A * state.

Definition ret {A} (a : A) : M A := fun st => ([], Ok a, st).

Definition bind {A B} (m : M A) (f : A -> M B) : M B :=
  fun st =>
    match m st with
    | (out, Ok a, st') =>
        let '(out', r, st'') := f a st' in ((out ++ out')%list, r, st'')
    | (out, Raise e, st') => (out, Raise e, st')
    end.

Notation "x <- m ;; k" := (bind m (fun x => k))
  (at level 61, m at next level, right associativity).
Notation "m ;; k" := (bind m (fun _ => k))
  (at level 61, right associativity).

Definition raise {A} (e : exn) : M A := fun st => ([], Raise e, st).

(** [try: m  except ...: h e]; [h] answers [None] for the exceptions no
    clause catches. *)
Definition try_except {A} (m : M A) (h : exn -> option (M A)) : M A :=
  fun st =>
    match m st with
    | (out, Ok a, st') => (out, Ok a, st')
    | (out, Raise e, st') =>
        match h e with
        | Some k => let '(out', r, st'') := k st' in ((out ++ out')%list, r, st'')
        | None => (out, Raise e, st')
        end
    end.

Definition lift {A} (r : result A) : M A := fun st => ([], r, st).

Definition print (line : string) : M unit := fun st => ([Print line], Ok tt, st).

(** [input(text)]: the next line without its newline, [EOFError] when
    standard input is exhausted. *)
Definition input (text : string) : M string :=
  fun st =>
    match stdin st with
    | [] => ([Prompt text], Raise EOFError, st)
    | line :: rest => ([Prompt text], Ok line, mkState rest (cwd st))
    end.

(** [sys.exit(code)] *)
Definition sys_exit {A} (code : Z) : M A := raise (SystemExit code).

(** [os.chdir(dir)] and [os.getcwd()] *)
Definition chdir (dir : PurePath) : M unit :=
  fun st => ([Chdir dir], Ok tt, mkState (stdin st) dir).

Definition getcwd : M PurePath := fun st => ([], Ok (cwd st), st).

(** [for x in l: body x] *)
Fixpoint for_each {A} (l : list A) (body : A -> M unit) : M unit :=
  match l with
  | [] => ret tt
  | x :: l' => body x ;; for_each l' body
  end.

(** [enumerate(l, start)] *)
Fixpoint enumerate {A} (l : list A) (start : Z) : list (Z * A) :=
  match l with
  | [] => []
  | x :: l' => (start, x) :: enumerate l' (start + 1)
  end.

Definition nl : string := String (ascii_of_nat 10) "".

(** The dictionaries built by [get_yaml_configs]. *)
Record config : Type := mkConfig {
  path : PurePath;
  name : string;
  full_path : PurePath
}.

(** The process status the interpreter ends with: [0] when [main] returns,
    the code of a [SystemExit], [1] after any other exception. *)
Definition exit_status (r : result unit) : Z :=
  match r with
  | Ok _ => 0
  | Raise (SystemExit c) => c
  | Raise _ => 1
  end.

(** ** The launcher *)

Section Launcher.

Variable env : Env.

(** [p.exists()] *)
Definition path_exists (p : PurePath) : bool :=
  match lookup (fs env) (parts p) with
  | Some _ => true
  | None => false
  end.

(** [d.rglob(pattern)] *)
Definition rglob (d : PurePath) (pattern : string) : list PurePath :=
  match lookup (fs env) (parts d) with
  | Some t =>
      map (fun rel => mkPath (root d) (parts d ++ rel))
          (rglob_rel (PyStr.fnmatch pattern) t)
  | None => []
  end.

(** [subprocess.run(cmd, check=True)] *)
Definition subprocess_run_check (cmd : list string) : M unit :=
  fun st =>
    ([Spawn (cwd st) cmd],
     match spawn env (cwd st) cmd with
     | Exited rc => if rc =? 0 then Ok tt else Raise (CalledProcessError rc)
     | NoSuchFile => Raise FileNotFoundError
     | SpawnError => Raise OSError
     end,
     st).

Definition get_project_root : PurePath :=
  PurePath.parent (PurePath.parent (script_file env)).

Definition possible_paths : list PurePath :=
  let project_root := get_project_root in
  [ project_root // "build" // "bin" // "Release" // "qiwu-example.exe";
    project_root // "build" // "bin" // "RelWithDebInfo" // "qiwu-example.exe";
    project_root // "build" // "bin" // "qiwu-example";
    project_root // "build" // "qiwu-example" ].

Definition get_executable_path : option PurePath :=
  find path_exists possible_paths.

(** The loop of [get_yaml_configs] that turns the sorted files into
    dictionaries. *)
Fixpoint build_configs (resources : PurePath) (files : list PurePath)
  : result (list config) :=
  match files with
  | [] => Ok []
  | yaml_file :: files' =>
      match PurePath.relative_to yaml_file resources with
      | Raise e => Raise e
      | Ok rel_path =>
          match build_configs resources files' with
          | Raise e => Raise e
          | Ok configs =>
              Ok (mkConfig rel_path (PurePath.stem yaml_file) yaml_file
                    :: configs)
          end
      end
  end.

Definition get_yaml_configs : result (list config) :=
  let project_root := get_project_root in
  let yaml_dir := project_root // "resources" // "exps" in
  if negb (path_exists yaml_dir) then Ok []
  else
    let yaml_files := flat_map (rglob yaml_dir) ["*.yaml"; "*.yml"] in
    build_configs (project_root // "resources") (sorted yaml_files).

Definition menu_line (entry : Z * config) : string :=
  PyStr.of_int (fst entry) ++ ". " ++ name (snd entry).

Definition display_configs (configs : list config) : M unit :=
  print (nl ++ "Available configuration files:") ;;
  print (PyStr.repeat "-" 50) ;;
  for_each (enumerate configs 1) (fun entry => print (menu_line entry)) ;;
  print (PyStr.repeat "-" 50).

Definition len {A} (l : list A) : Z := Z.of_nat (List.length l).

Definition choice_prompt (configs : list config) : string :=
  "Please select configuration file (1-" ++ PyStr.of_int (len configs)
  ++ ") or enter 'q' to quit: ".

(** The [while True] loop of [get_user_choice], by recursion on the lines
    waiting on standard input: every turn reads one. *)
Fixpoint get_user_choice_loop (configs : list config) (lines : list string)
  : list event * result config * list string :=
  match lines with
  | [] => ([Prompt (choice_prompt configs)], Raise EOFError, [])
  | line :: rest =>
      let choice := PyStr.strip line in
      if (PyStr.lower choice =? "q")%string then
        ([Prompt (choice_prompt configs); Print "Program exit"],
         Raise (SystemExit 0), rest)
      else
        match PyStr.int choice with
        | Some choice_num =>
            if (1 <=? choice_num) && (choice_num <=? len configs) then
              match nth_error configs (Z.to_nat (choice_num - 1)) with
              | Some c => ([Prompt (choice_prompt configs)], Ok c, rest)
              | None => ([Prompt (choice_prompt configs)], Raise IndexError, rest)
              end
            else
              let '(out, r, rest') := get_user_choice_loop configs rest in
              (Prompt (choice_prompt configs)
                 :: Print ("Please enter a number between 1 and "
                           ++ PyStr.of_int (len configs))
                 :: out, r, rest')
        | None =>
            let '(out, r, rest') := get_user_choice_loop configs rest in
            (Prompt (choice_prompt configs)
               :: Print "Please enter a valid number or 'q' to quit"
               :: out, r, rest')
        end
  end.

Definition get_user_choice (configs : list config) : M config :=
  fun st =>
    let '(out, r, rest) := get_user_choice_loop configs (stdin st) in
    (out, r, mkState rest (cwd st)).

Definition run_experiment (executable_path : PurePath) (cfg : config) : M bool :=
  let project_root := get_project_root in
  print (nl ++ "Running: " ++ name cfg) ;;
  print ("Using executable: " ++ PurePath.str executable_path) ;;
  print ("Configuration file: " ++ PurePath.str (path cfg)) ;;
  print (PyStr.repeat "-" 50) ;;
  chdir project_root ;;
  d <- getcwd ;;
  print ("Current directory: " ++ PurePath.str d) ;;
  let cmd := [PurePath.str executable_path; PurePath.str (path cfg)] in
  print ("Executing: " ++ PyStr.join " " cmd) ;;
  try_except
    (subprocess_run_check cmd ;;
     print (nl ++ "Experiment completed successfully") ;;
     ret true)
    (fun e =>
       match e with
       | CalledProcessError returncode =>
           Some (print (nl ++ "Experiment failed with return code: "
                        ++ PyStr.of_int returncode) ;;
                 ret false)
       | FileNotFoundError =>
           Some (print (nl ++ "Error: Could not find executable at "
                        ++ PurePath.str executable_path) ;;
                 ret false)
       | _ => None
       end).

Definition main : M unit :=
  print "Qiwu Examples Runner" ;;
  print (PyStr.repeat "=" 50) ;;
  match get_executable_path with
  | None =>
      print "Error: Executable not found" ;;
      print "Please make sure the project is compiled" ;;
      print "Expected locations:" ;;
      print "  - build/bin/Release/qiwu-example.exe (Windows)" ;;
      print "  - build/bin/RelWithDebInfo/qiwu-example.exe (Windows)" ;;
      print "  - build/bin/qiwu-example (Linux/macOS)" ;;
      input "Press Enter to exit..." ;;
      sys_exit 1
  | Some executable_path =>
      let yaml_dir := get_project_root // "resources" // "exps" in
      if negb (path_exists yaml_dir) then
        print ("Error: YAML config directory not found: "
               ++ PurePath.str yaml_dir) ;;
        input "Press Enter to exit..." ;;
        sys_exit 1
      else
        configs <- lift get_yaml_configs ;;
        match configs with
        | [] =>
            print "No YAML configuration files found" ;;
            input "Press Enter to exit..." ;;
            sys_exit 1
        | _ :: _ =>
            display_configs configs ;;
            selected_config <- get_user_choice configs ;;
            success <- run_experiment executable_path selected_config ;;
            input (nl ++ "Press Enter to exit...") ;;
            ret tt
        end
  end.

(** One run of the script: the trace, how [main] ended, the final state. *)
Definition run (lines : list string) : list event * result unit * state :=
  main (mkState lines (start_dir env)).

Definition outcome (lines : list string) : result unit :=
  snd (fst (run lines)).

Definition trace (lines : list string) : list event :=
  fst (fst (run lines)).

End Launcher.

(** ** Notions the statements use *)

(** [entry_at t rel]: the directory [t] has an entry (of any kind) at the
    relative path [rel], at any depth. *)
Inductive entry_at : node -> list string -> Prop :=
| entry_here : forall es n t,
    In (n, t) es -> entry_at (Dir es) [n]
| entry_below : forall es n t rel,
    In (n, t) es -> entry_at t rel -> entry_at (Dir es) (n :: rel).

(** A file name with one of the two extensions. *)
Definition yaml_name (n : string) : Prop :=
  (exists s, n = s ++ ".yaml") \/ (exists s, n = s ++ ".yml").

(** [s] ends with [suffix]. *)
Definition ends_with (s suffix : string) : Prop := exists s0, s = s0 ++ suffix.

(** [p <= q] on paths: [q < p] does not hold. *)
Definition path_le (p q : PurePath) : Prop :=
  PurePath.compare_parts (root p :: parts p) (root q :: parts q) <> Gt.

(** The two directories the script names. *)
Definition resources_dir (env : Env) : PurePath :=
  get_project_root env // "resources".

Definition yaml_dir (env : Env) : PurePath :=
  get_project_root env // "resources" // "exps".

(** The three start-up failures of [main]. *)
Definition start_failure (env : Env) : Prop :=
  get_executable_path env = None
  \/ path_exists env (yaml_dir env) = false
  \/ get_yaml_configs env = Ok [].

(** The messages [run_experiment] ends with. *)
Definition msg_completed : string := nl ++ "Experiment completed successfully".

Definition msg_failed (returncode : Z) : string :=
  nl ++ "Experiment failed with return code: " ++ PyStr.of_int returncode.

Definition msg_not_found (executable_path : PurePath) : string :=
  nl ++ "Error: Could not find executable at " ++ PurePath.str executable_path.

(** Where a discovered entry sits: [rel] below the scanned directory. *)
Definition below_yaml_dir (env : Env) (rel : list string) : PurePath :=
  mkPath (root (yaml_dir env)) (parts (yaml_dir env) ++ rel).

(** The dictionary built for the file at [rel] below the scanned directory. *)
Definition entry_of (env : Env) (rel : list string) : config :=
  mkConfig (mkPath "" ("exps" :: rel))
           (PurePath.stem (below_yaml_dir env rel))
           (below_yaml_dir env rel).

(** The list [yaml_files] of [get_yaml_configs] before it is sorted. *)
Definition yaml_files (env : Env) : list PurePath :=
  flat_map (rglob env (yaml_dir env)) ["*.yaml"; "*.yml"].

(** The command line [run_experiment] builds. *)
Definition command_line (executable_path : PurePath) (cfg : config) : list string :=
  [PurePath.str executable_path; PurePath.str (path cfg)].

(** The events that act on the process: moving and spawning. *)
Definition acts (e : event) : bool :=
  match e with
  | Chdir _ | Spawn _ _ => true
  | Print _ | Prompt _ => false
  end.

(** One turn of the loop on a rejected line. *)
Definition reprompt (configs : list config) (msg : string) (rest : list string)
  : list event * result config * list string :=
  let '(out, r, rest') := get_user_choice_loop configs rest in
  (Prompt (choice_prompt configs) :: Print msg :: out, r, rest').

(** What a pause on [input] leaves of what follows it. *)
Definition after_pause (lines : list string) (r : result unit) : result unit :=
  match lines with
  | [] => Raise EOFError
  | _ :: _ => r
  end.

(** What [main] does once the three start-up checks have passed. *)
Definition flow_outcome
  (env : Env) (exe : PurePath) (configs : list config) (lines : list string)
  : result unit :=
  match get_user_choice_loop configs lines with
  | (_, Raise e, _) => Raise e
  | (_, Ok c, rest) =>
      match spawn env (get_project_root env) (command_line exe c) with
      | SpawnError => Raise OSError
      | _ => after_pause rest (Ok tt)
      end
  end.

(** A pattern without [*] and [?] accepts itself only. *)
Fixpoint literal (pat : string) : bool :=
  match pat with
  | EmptyString => true
  | String p pat' =>
      negb (p =? "*")%char && negb (p =? "?")%char && literal pat'
  end.

(** Lexicographic comparison of lists from a comparison of elements. *)
Fixpoint lex {A : Type} (cmp : A -> A -> comparison) (l1 l2 : list A) : comparison :=
  match l1, l2 with
  | [], [] => Eq
  | [], _ :: _ => Lt
  | _ :: _, [] => Gt
  | a :: l1', b :: l2' =>
      match cmp a b with
      | Eq => lex cmp l1' l2'
      | c => c
      end
  end.

(** ** Sample environments *)

Definition sample_exps : node :=
  Dir [("b.yaml", File); ("a.yml", File); ("c.txt", File)].

Definition sample_tree (resources : list (string * node)) : node :=
  Dir [("proj",
        Dir [("scripts", Dir [("run_qiwu_examples.py", File)]);
             ("build", Dir [("bin", Dir [("qiwu-example", File)])]);
             ("resources", Dir resources)])].

(** A project at [/proj] with a built executable; [resources] is what the
    resources directory lists and [child] how a spawn ends. *)
Definition sample_env (resources : list (string * node)) (child : proc_result) : Env :=
  mkEnv (mkPath "/" ["proj"; "scripts"; "run_qiwu_examples.py"])
        (sample_tree resources)
        (mkPath "/" ["home"])
        (fun _ _ => child).

(** A project at [/proj] whose [build] directory holds the chosen ones of
    the four candidate executables. *)
Definition build_tree (b1 b2 b3 b4 : bool) : node :=
  let opt (b : bool) (e : string * node) := if b then [e] else [] in
  Dir [("proj",
        Dir [("build",
              Dir (("bin",
                    Dir (("Release", Dir (opt b1 ("qiwu-example.exe", File)))
                         :: ("RelWithDebInfo", Dir (opt b2 ("qiwu-example.exe", File)))
                         :: opt b3 ("qiwu-example", File)))
                   :: opt b4 ("qiwu-example", File)))])].

Definition build_env (b1 b2 b3 b4 : bool) : Env :=
  mkEnv (mkPath "/" ["proj"; "scripts"; "run_qiwu_examples.py"])
        (build_tree b1 b2 b3 b4)
        (mkPath "/" ["home"])
        (fun _ _ => Exited 0).

Definition sample_exe : PurePath :=
  mkPath "/" ["proj"; "build"; "bin"; "qiwu-example"].

Definition sample_a : config :=
  mkConfig (mkPath "" ["exps"; "a.yml"]) "a"
           (mkPath "/" ["proj"; "resources"; "exps"; "a.yml"]).

Definition sample_b : config :=
  mkConfig (mkPath "" ["exps"; "b.yaml"]) "b"
           (mkPath "/" ["proj"; "resources"; "exps"; "b.yaml"]).

Definition sample_state : state := mkState [] (mkPath "/" ["home"]).

(** Unfolding of the monad's operations. *)
Ltac run_monad :=
  cbv beta iota zeta
      delta [bind print chdir getcwd try_except subprocess_run_check ret raise
             sys_exit lift input fst snd cwd stdin app].

(** ** Notions for the further properties *)

(** The number a row of decimal digits denotes after the digits that gave [acc]. *)
Fixpoint digits_value (d : Decimal.uint) (acc : Z) : Z :=
  match d with
  | Decimal.Nil => acc
  | Decimal.D0 d => digits_value d (10 * acc)
  | Decimal.D1 d => digits_value d (10 * acc + 1)
  | Decimal.D2 d => digits_value d (10 * acc + 2)
  | Decimal.D3 d => digits_value d (10 * acc + 3)
  | Decimal.D4 d => digits_value d (10 * acc + 4)
  | Decimal.D5 d => digits_value d (10 * acc + 5)
  | Decimal.D6 d => digits_value d (10 * acc + 6)
  | Decimal.D7 d => digits_value d (10 * acc + 7)
  | Decimal.D8 d => digits_value d (10 * acc + 8)
  | Decimal.D9 d => digits_value d (10 * acc + 9)
  end.

(** A directory tree as a file system has it: the names listed in one
    directory are pairwise distinct, at every depth. *)
Inductive wf_tree : node -> Prop :=
| wf_file : wf_tree File
| wf_dir : forall es,
    NoDup (map fst es) ->
    (forall e, In e es -> wf_tree (snd e)) ->
    wf_tree (Dir es).

(** [rel] is an entry below the scanned directory [resources/exps]. *)
Definition yaml_dir_entry (env : Env) (rel : list string) : Prop :=
  exists t, lookup (fs env) (parts (yaml_dir env)) = Some t /\ entry_at t rel.

(** A line [get_user_choice] rejects before a menu [configs]: not the quit
    letter, and not an integer or an integer out of range. *)
Definition rejected (configs : list config) (line : string) : Prop :=
  PyStr.lower (PyStr.strip line) <> "q"
  /\ (PyStr.int (PyStr.strip line) = None
      \/ exists n, PyStr.int (PyStr.strip line) = Some n
                   /\ ~ (1 <= n <= len configs)).

Definition is_prompt (e : event) : bool :=
  match e with
  | Prompt _ => true
  | _ => false
  end.

(** [p.is_file()] *)
Definition is_file (env : Env) (p : PurePath) : bool :=
  match lookup (fs env) (parts p) with
  | Some File => true
  | _ => false
  end.

(** A project whose [resources/exps] holds an empty directory called
    [d.yaml], beside the files listed in [files]. *)
Definition dir_yaml_env (files : list (string * node)) : Env :=
  sample_env [("exps", Dir (files ++ [("d.yaml", Dir [])]))] (Exited 0).

Definition sample_d : config :=
  mkConfig (mkPath "" ["exps"; "d.yaml"]) "d"
           (mkPath "/" ["proj"; "resources"; "exps"; "d.yaml"]).

(** Closes a goal about the digits of [Dk d] with a lemma on all digits. *)
Ltac by_digits lem d :=
  first [ exact (lem (Decimal.D0 d)) | exact (lem (Decimal.D1 d))
        | exact (lem (Decimal.D2 d)) | exact (lem (Decimal.D3 d))
        | exact (lem (Decimal.D4 d)) | exact (lem (Decimal.D5 d))
        | exact (lem (Decimal.D6 d)) | exact (lem (Decimal.D7 d))
        | exact (lem (Decimal.D8 d)) | exact (lem (Decimal.D9 d)) ].

(** * Properties *)

(** ** Strings *)

Lemma ascii_compare_refl (c : ascii) : Ascii.compare c c = Eq.
Proof. unfold Ascii.compare. apply N.compare_refl. Qed.

Lemma string_compare_refl (s : string) : String.compare s s = Eq.
Proof.
  induction s as [|c s IH]; simpl; [reflexivity|].
  now rewrite ascii_compare_refl.
Qed.

Lemma string_app_assoc (a b c : string) : ((a ++ b) ++ c = a ++ (b ++ c))%string.
Proof. induction a as [|x a IH]; simpl; [reflexivity | now rewrite IH]. Qed.

Lemma string_app_nil_r (a : string) : (a ++ "" = a)%string.
Proof. induction a as [|x a IH]; simpl; [reflexivity | now rewrite IH]. Qed.

(** A pattern [*lit] accepts the names that end with what [lit] accepts. *)
Lemma fnmatch_star (pat' name : string) :
  PyStr.fnmatch (String "*" pat') name = true
  <-> exists a b, name = (a ++ b)%string /\ PyStr.fnmatch pat' b = true.
Proof.
  induction name as [|c name IH].
  - simpl. rewrite orb_false_r. split.
    + intros H. exists "", "". now split.
    + intros (a & b & E & H). destruct a; [|discriminate].
      simpl in E. now subst b.
  - change (PyStr.fnmatch (String "*" pat') (String c name))
      with (PyStr.fnmatch pat' (String c name)
            || PyStr.fnmatch (String "*" pat') name).
    rewrite orb_true_iff, IH. split.
    + intros [H | (a & b & E & H)].
      * exists "", (String c name). now split.
      * exists (String c a), b. split; [simpl; now rewrite E | exact H].
    + intros (a & b & E & H). destruct a as [|x a].
      * left. simpl in E. now subst b.
      * right. simpl in E. injection E as E1 E2. subst c. now exists a, b.
Qed.


Lemma fnmatch_literal (pat : string) :
  literal pat = true ->
  forall name, PyStr.fnmatch pat name = true <-> name = pat.
Proof.
  induction pat as [|p pat IH]; intros Hl name.
  - cbn [PyStr.fnmatch]. apply String.eqb_eq.
  - cbn [literal] in Hl. apply andb_prop in Hl. destruct Hl as [Hl Hl3].
    apply andb_prop in Hl. destruct Hl as [Hl1 Hl2].
    apply negb_true_iff in Hl1, Hl2.
    cbn [PyStr.fnmatch]. rewrite Hl1. destruct name as [|c name].
    + split; discriminate.
    + rewrite Hl2, orb_false_l, andb_true_iff, Ascii.eqb_eq, (IH Hl3).
      split; [intros [-> ->]; reflexivity | intros E; now inversion E].
Qed.

Lemma fnmatch_suffix (lit n : string) :
  literal lit = true ->
  PyStr.fnmatch (String "*" lit) n = true <-> ends_with n lit.
Proof.
  intros Hl. rewrite fnmatch_star. unfold ends_with. split.
  - intros (a & b & E & H). exists a. apply (fnmatch_literal _ Hl) in H.
    now subst b.
  - intros (a & E). exists a, lit. split; [exact E|].
    now apply fnmatch_literal.
Qed.

Lemma fnmatch_yaml (n : string) :
  PyStr.fnmatch "*.yaml" n = true <-> ends_with n ".yaml".
Proof. now apply fnmatch_suffix. Qed.

Lemma fnmatch_yml (n : string) :
  PyStr.fnmatch "*.yml" n = true <-> ends_with n ".yml".
Proof. now apply fnmatch_suffix. Qed.

(** ** The directory tree *)

Lemma node_ind (P : node -> Prop) :
  P File ->
  (forall es, Forall (fun e => P (snd e)) es -> P (Dir es)) ->
  forall t, P t.
Proof.
  intros HF HD. fix IH 1. intros [|es]; [exact HF|].
  apply HD. induction es as [|[n t] es IHes]; constructor.
  - apply IH.
  - exact IHes.
Qed.

Lemma rglob_rel_spec (keep : string -> bool) (t : node) (rel : list string) :
  In rel (rglob_rel keep t) <-> entry_at t rel /\ keep (last rel "") = true.
Proof.
  revert rel. induction t as [|es IH] using node_ind; intros rel.
  - simpl. split; [tauto|]. intros [H _]. inversion H.
  - simpl. rewrite in_app_iff, in_map_iff, in_flat_map. split.
    + intros [((n, t) & <- & Hin) | ((n, t) & Hin & Hrel)].
      * apply filter_In in Hin. destruct Hin as [Hin Hk]. split.
        -- eapply entry_here; eauto.
        -- exact Hk.
      * simpl in Hrel. apply in_map_iff in Hrel.
        destruct Hrel as (rel' & <- & Hrel').
        rewrite Forall_forall in IH. apply (IH _ Hin) in Hrel'.
        simpl in Hrel'. destruct Hrel' as [He Hk]. split.
        -- eapply entry_below; eauto.
        -- destruct rel'; [inversion He | exact Hk].
    + intros [He Hk]. inversion He as [es' n t Hin | es' n t rel' Hin He']; subst.
      * left. exists (n, t). split; [reflexivity|].
        apply filter_In. now split.
      * right. exists (n, t). split; [exact Hin|]. simpl.
        apply in_map_iff. exists rel'. split; [reflexivity|].
        rewrite Forall_forall in IH. apply (IH _ Hin). simpl. split; [exact He'|].
        destruct rel'; [inversion He' | exact Hk].
Qed.

(** ** Lexicographic comparison *)

Section Lex.

Context {A : Type} (cmp : A -> A -> comparison).

Hypothesis cmp_refl : forall a, cmp a a = Eq.
Hypothesis cmp_eq : forall a b, cmp a b = Eq -> a = b.
Hypothesis cmp_antisym : forall a b, cmp a b = CompOpp (cmp b a).
Hypothesis cmp_lt_trans : forall a b c, cmp a b = Lt -> cmp b c = Lt -> cmp a c = Lt.


Lemma lex_refl l : lex cmp l l = Eq.
Proof. induction l as [|a l IH]; simpl; [reflexivity | now rewrite cmp_refl]. Qed.

Lemma lex_eq l1 l2 : lex cmp l1 l2 = Eq -> l1 = l2.
Proof.
  revert l2. induction l1 as [|a l1 IH]; intros [|b l2]; simpl; try discriminate.
  - reflexivity.
  - destruct (cmp a b) eqn:E; try discriminate.
    intros H. apply cmp_eq in E. apply IH in H. now subst.
Qed.

Lemma lex_antisym l1 l2 : lex cmp l1 l2 = CompOpp (lex cmp l2 l1).
Proof.
  revert l2. induction l1 as [|a l1 IH]; intros [|b l2]; simpl; try reflexivity.
  rewrite (cmp_antisym b a). destruct (cmp a b); simpl; auto.
Qed.

Lemma lex_lt_trans l1 l2 l3 : lex cmp l1 l2 = Lt -> lex cmp l2 l3 = Lt -> lex cmp l1 l3 = Lt.
Proof.
  revert l2 l3.
  induction l1 as [|a l1 IH]; intros [|b l2] [|c l3]; simpl; try discriminate; auto.
  destruct (cmp a b) eqn:Eab; try discriminate.
  - apply cmp_eq in Eab. subst b.
    destruct (cmp a c); try discriminate; eauto.
  - intros _. destruct (cmp b c) eqn:Ebc; try discriminate.
    + apply cmp_eq in Ebc. subst c. now rewrite Eab.
    + now rewrite (cmp_lt_trans _ _ _ Eab Ebc).
Qed.

Lemma lex_le_trans l1 l2 l3 : lex cmp l1 l2 <> Gt -> lex cmp l2 l3 <> Gt -> lex cmp l1 l3 <> Gt.
Proof.
  intros H12 H23.
  destruct (lex cmp l1 l2) eqn:E12; [| |congruence].
  - apply lex_eq in E12. now subst.
  - destruct (lex cmp l2 l3) eqn:E23; [| |congruence].
    + apply lex_eq in E23. subst. now rewrite E12.
    + now rewrite (lex_lt_trans _ _ _ E12 E23).
Qed.

Lemma lex_app_prefix pre l1 l2 : lex cmp (pre ++ l1) (pre ++ l2) = lex cmp l1 l2.
Proof. induction pre as [|a pre IH]; simpl; [reflexivity | now rewrite cmp_refl]. Qed.

End Lex.

Lemma ascii_compare_lt_trans (a b c : ascii) :
  Ascii.compare a b = Lt -> Ascii.compare b c = Lt -> Ascii.compare a c = Lt.
Proof.
  unfold Ascii.compare. rewrite !N.compare_lt_iff. lia.
Qed.

Lemma string_compare_lex (s1 s2 : string) :
  String.compare s1 s2
  = lex Ascii.compare (list_ascii_of_string s1) (list_ascii_of_string s2).
Proof.
  revert s2. induction s1 as [|a s1 IH]; intros [|b s2]; simpl; try reflexivity.
  now rewrite IH.
Qed.

Lemma string_compare_lt_trans (a b c : string) :
  String.compare a b = Lt -> String.compare b c = Lt -> String.compare a c = Lt.
Proof.
  rewrite !string_compare_lex.
  apply lex_lt_trans.
  - apply Ascii.compare_eq_iff.
  - apply ascii_compare_lt_trans.
Qed.

Lemma compare_parts_lex (l1 l2 : list string) :
  PurePath.compare_parts l1 l2 = lex String.compare l1 l2.
Proof.
  revert l2. induction l1 as [|a l1 IH]; intros [|b l2]; simpl; try reflexivity.
  now rewrite IH.
Qed.

Lemma path_le_refl (p : PurePath) : path_le p p.
Proof.
  unfold path_le.
  rewrite compare_parts_lex, (lex_refl _ string_compare_refl). discriminate.
Qed.

Lemma path_le_trans (p q r : PurePath) : path_le p q -> path_le q r -> path_le p r.
Proof.
  unfold path_le. rewrite !compare_parts_lex.
  apply lex_le_trans.
  - apply String.compare_eq_iff.
  - apply string_compare_lt_trans.
Qed.

Lemma path_le_antisym (p q : PurePath) : path_le p q -> path_le q p -> p = q.
Proof.
  unfold path_le. rewrite !compare_parts_lex.
  rewrite (lex_antisym String.compare String.compare_antisym _ (root p :: parts p)).
  destruct (lex String.compare (root p :: parts p) (root q :: parts q)) eqn:E;
    simpl; try congruence.
  apply lex_eq in E; [|apply String.compare_eq_iff].
  destruct p, q. simpl in E. congruence.
Qed.

Lemma ltb_false_le (x y : PurePath) : PurePath.ltb x y = false -> path_le y x.
Proof.
  unfold PurePath.ltb, path_le. rewrite !compare_parts_lex.
  rewrite (lex_antisym String.compare String.compare_antisym _ (root x :: parts x)).
  destruct (lex String.compare (root x :: parts x) (root y :: parts y));
    simpl; congruence.
Qed.

Lemma ltb_true_le (x y : PurePath) : PurePath.ltb x y = true -> path_le x y.
Proof.
  unfold PurePath.ltb, path_le.
  destruct (PurePath.compare_parts _ _); congruence.
Qed.

(** ** [sorted] *)

Lemma insert_sorted_perm (x : PurePath) (l : list PurePath) :
  Permutation (insert_sorted x l) (x :: l).
Proof.
  induction l as [|y l IH]; simpl; [reflexivity|].
  destruct (PurePath.ltb x y); [reflexivity|].
  rewrite IH. apply perm_swap.
Qed.

Lemma insert_sorted_hdrel (a x : PurePath) (l : list PurePath) :
  path_le a x -> HdRel path_le a l -> HdRel path_le a (insert_sorted x l).
Proof.
  intros Hax Hl. destruct l as [|y l]; simpl; [now constructor|].
  destruct (PurePath.ltb x y); constructor; [exact Hax|].
  now inversion Hl.
Qed.

Lemma insert_sorted_Sorted (x : PurePath) (l : list PurePath) :
  Sorted path_le l -> Sorted path_le (insert_sorted x l).
Proof.
  induction l as [|y l IH]; simpl; intros Hs.
  - repeat constructor.
  - destruct (PurePath.ltb x y) eqn:E.
    + constructor; [exact Hs|]. constructor. now apply ltb_true_le.
    + inversion Hs as [|? ? Hs' Hhd]; subst. constructor; [now apply IH|].
      apply insert_sorted_hdrel; [now apply ltb_false_le | exact Hhd].
Qed.

Lemma fold_insert_perm (l acc : list PurePath) :
  Permutation (fold_left (fun acc x => insert_sorted x acc) l acc) (l ++ acc).
Proof.
  revert acc. induction l as [|x l IH]; intros acc; simpl; [reflexivity|].
  rewrite IH, insert_sorted_perm. now rewrite Permutation_middle.
Qed.

Lemma fold_insert_Sorted (l acc : list PurePath) :
  Sorted path_le acc ->
  Sorted path_le (fold_left (fun acc x => insert_sorted x acc) l acc).
Proof.
  revert acc. induction l as [|x l IH]; intros acc Hs; simpl; [exact Hs|].
  apply IH. now apply insert_sorted_Sorted.
Qed.

Lemma sorted_perm (l : list PurePath) : Permutation (sorted l) l.
Proof. unfold sorted. rewrite fold_insert_perm. now rewrite app_nil_r. Qed.

Lemma sorted_Sorted (l : list PurePath) : Sorted path_le (sorted l).
Proof. apply fold_insert_Sorted. constructor. Qed.

Lemma sorted_StronglySorted (l : list PurePath) : StronglySorted path_le (sorted l).
Proof.
  apply Sorted_StronglySorted; [|apply sorted_Sorted].
  intros p q r. apply path_le_trans.
Qed.

(** ** Paths *)

Lemma strip_prefix_app (pre l : list string) :
  PurePath.strip_prefix pre (pre ++ l) = Some l.
Proof.
  induction pre as [|a pre IH]; simpl; [reflexivity|].
  now rewrite String.eqb_refl.
Qed.

Lemma relative_to_below (res : PurePath) (rel : list string) :
  PurePath.relative_to (mkPath (root res) (parts res ++ rel)) res
  = Ok (mkPath "" rel).
Proof.
  unfold PurePath.relative_to. simpl.
  now rewrite String.eqb_refl, strip_prefix_app.
Qed.

Lemma joinpath_relative (p : PurePath) (rel : list string) :
  PurePath.joinpath p (mkPath "" rel) = mkPath (root p) (parts p ++ rel).
Proof. reflexivity. Qed.

Lemma last_app_cons {A} (l1 : list A) (a : A) (l2 : list A) (d : A) :
  last (l1 ++ a :: l2) d = last (a :: l2) d.
Proof.
  induction l1 as [|x l1 IH]; [reflexivity|].
  simpl app. rewrite <- IH. simpl. destruct (l1 ++ a :: l2)%list eqn:E; [|reflexivity].
  now destruct l1.
Qed.

(** ** [get_yaml_configs] *)

Lemma below_yaml_dir_resources (env : Env) (rel : list string) :
  below_yaml_dir env rel
  = mkPath (root (resources_dir env)) (parts (resources_dir env) ++ "exps" :: rel).
Proof.
  unfold below_yaml_dir, yaml_dir, resources_dir. simpl.
  now rewrite <- app_assoc.
Qed.

Lemma rglob_spec (env : Env) (pattern : string) (p : PurePath) :
  In p (rglob env (yaml_dir env) pattern)
  <-> exists t rel,
        lookup (fs env) (parts (yaml_dir env)) = Some t /\ entry_at t rel
        /\ PyStr.fnmatch pattern (last rel "") = true
        /\ p = below_yaml_dir env rel.
Proof.
  unfold rglob. destruct (lookup (fs env) (parts (yaml_dir env))) as [t|].
  - rewrite in_map_iff. split.
    + intros (rel & <- & Hin). apply rglob_rel_spec in Hin.
      destruct Hin as [He Hk]. now exists t, rel.
    + intros (t' & rel & Et & He & Hk & ->). injection Et as <-.
      exists rel. split; [reflexivity|]. now apply rglob_rel_spec.
  - split; [intros []|]. intros (t & rel & Et & _). discriminate.
Qed.

Lemma build_configs_below (env : Env) (rels : list (list string)) :
  build_configs (resources_dir env) (map (below_yaml_dir env) rels)
  = Ok (map (entry_of env) rels).
Proof.
  induction rels as [|rel rels IH]; [reflexivity|].
  simpl. rewrite IH.
  rewrite (below_yaml_dir_resources env rel) at 1.
  now rewrite relative_to_below.
Qed.

Lemma in_map_below (env : Env) (l : list PurePath) :
  (forall p, In p l -> exists rel, p = below_yaml_dir env rel) ->
  exists rels, l = map (below_yaml_dir env) rels.
Proof.
  induction l as [|p l IH]; intros H.
  - now exists [].
  - destruct (H p (or_introl eq_refl)) as (rel & ->).
    destruct IH as (rels & ->); [intros q Hq; apply H; now right|].
    now exists (rel :: rels).
Qed.

Lemma yaml_files_spec (env : Env) (p : PurePath) :
  In p (yaml_files env)
  <-> exists t rel,
        lookup (fs env) (parts (yaml_dir env)) = Some t /\ entry_at t rel
        /\ yaml_name (last rel "") /\ p = below_yaml_dir env rel.
Proof.
  unfold yaml_files. simpl. rewrite app_nil_r, in_app_iff, !rglob_spec.
  unfold yaml_name. split.
  - intros [(t & rel & Et & He & Hk & E) | (t & rel & Et & He & Hk & E)];
      exists t, rel; repeat split; auto.
    + left. now apply fnmatch_yaml.
    + right. now apply fnmatch_yml.
  - intros (t & rel & Et & He & [Hk | Hk] & E); [left | right];
      exists t, rel; repeat split; auto.
    + now apply fnmatch_yaml.
    + now apply fnmatch_yml.
Qed.

(** The discovery never raises: it returns the entries of the sorted
    files, or nothing when the directory is absent. *)
Lemma get_yaml_configs_eq (env : Env) :
  exists rels,
    sorted (yaml_files env) = map (below_yaml_dir env) rels
    /\ get_yaml_configs env
       = Ok (if path_exists env (yaml_dir env)
             then map (entry_of env) rels else []).
Proof.
  destruct (in_map_below env (sorted (yaml_files env))) as (rels & E).
  - intros p Hp. apply (Permutation_in _ (sorted_perm _)) in Hp.
    apply yaml_files_spec in Hp. destruct Hp as (t & rel & _ & _ & _ & ->).
    now exists rel.
  - exists rels. split; [exact E|].
    unfold get_yaml_configs. fold (yaml_dir env).
    destruct (path_exists env (yaml_dir env)); simpl negb; cbv iota; [|reflexivity].
    fold (resources_dir env).
    change (flat_map (rglob env (yaml_dir env)) ["*.yaml"; "*.yml"])
      with (yaml_files env).
    rewrite E. apply build_configs_below.
Qed.

Lemma get_yaml_configs_total (env : Env) :
  exists configs, get_yaml_configs env = Ok configs.
Proof. destruct (get_yaml_configs_eq env) as (rels & _ & E). eauto. Qed.

(** ** Claims about executable resolution and configuration discovery *)

Lemma find_first {A} (f : A -> bool) (l : list A) (x : A) :
  find f l = Some x
  <-> exists i, nth_error l i = Some x /\ f x = true
                /\ forall j y, (j < i)%nat -> nth_error l j = Some y -> f y = false.
Proof.
  induction l as [|a l IH]; simpl.
  - split; [discriminate|]. intros (i & H & _). now destruct i.
  - destruct (f a) eqn:Ea.
    + split.
      * intros [= <-]. exists O. repeat split; auto. intros j y Hj. lia.
      * intros (i & Hi & Hx & Hmin). destruct i as [|i]; [simpl in Hi; congruence|].
        specialize (Hmin O a ltac:(lia) eq_refl). congruence.
    + rewrite IH. split.
      * intros (i & Hi & Hx & Hmin). exists (S i). repeat split; auto.
        intros [|j] y Hj Hy; simpl in Hy; [congruence|].
        apply (Hmin j); [lia | exact Hy].
      * intros (i & Hi & Hx & Hmin). destruct i as [|i]; [simpl in Hi; congruence|].
        exists i. repeat split; auto. intros j y Hj Hy.
        apply (Hmin (S j)); [lia | exact Hy].
Qed.

Lemma find_none_iff {A} (f : A -> bool) (l : list A) :
  find f l = None <-> forall x, In x l -> f x = false.
Proof.
  split; [apply find_none|].
  induction l as [|a l IH]; simpl; intros H; [reflexivity|].
  rewrite (H a (or_introl eq_refl)). apply IH. intros x Hx. apply H. now right.
Qed.

(** Every combination of existing and missing candidates occurs. *)
Lemma possible_paths_independent (b1 b2 b3 b4 : bool) :
  map (path_exists (build_env b1 b2 b3 b4)) (possible_paths (build_env b1 b2 b3 b4))
  = [b1; b2; b3; b4].
Proof. destruct b1, b2, b3, b4; reflexivity. Qed.

(** C1. [get_executable_path] tries the four fixed locations below the
    project root in their order and returns the first one that exists:
    the returned path sits at some position of the list, exists, and
    nothing before it exists.  It returns [None] exactly when none of the
    four exists. *)
Theorem get_executable_path_first_existing (env : Env) :
  possible_paths env
  = map (PurePath.joinpath (get_project_root env))
      [ mkPath "" ["build"; "bin"; "Release"; "qiwu-example.exe"];
        mkPath "" ["build"; "bin"; "RelWithDebInfo"; "qiwu-example.exe"];
        mkPath "" ["build"; "bin"; "qiwu-example"];
        mkPath "" ["build"; "qiwu-example"] ]
  /\ (forall p,
        get_executable_path env = Some p
        <-> exists i,
              nth_error (possible_paths env) i = Some p
              /\ path_exists env p = true
              /\ forall j q, (j < i)%nat ->
                   nth_error (possible_paths env) j = Some q ->
                   path_exists env q = false)
  /\ (get_executable_path env = None
      <-> forall p, In p (possible_paths env) -> path_exists env p = false).
Proof.
  split; [|split].
  - unfold possible_paths, PurePath.joinpath, PurePath.truediv. simpl.
    now rewrite <- !app_assoc.
  - intros p. apply find_first.
  - apply find_none_iff.
Qed.

Lemma Permutation_filter {A} (f : A -> bool) (l l' : list A) :
  Permutation l l' -> Permutation (filter f l) (filter f l').
Proof.
  induction 1 as [|x l l' _ IH|x y l|l l' l'' _ IH1 _ IH2]; simpl.
  - constructor.
  - destruct (f x); [now constructor | exact IH].
  - destruct (f x), (f y); try reflexivity. apply perm_swap.
  - now transitivity (filter f l').
Qed.

Lemma rglob_rel_flat (keep : string -> bool) (es : list (string * node)) :
  (forall e, In e es -> snd e = File) ->
  rglob_rel keep (Dir es)
  = map (fun e => [fst e]) (filter (fun e => keep (fst e)) es).
Proof.
  intros H. simpl. rewrite <- app_nil_r. f_equal.
  induction es as [|e es IH]; [reflexivity|].
  simpl. rewrite (H e (or_introl eq_refl)). simpl. apply IH.
  intros e' He'. apply H. now right.
Qed.

Lemma no_yaml_files_nil (env : Env) :
  (forall t rel, lookup (fs env) (parts (yaml_dir env)) = Some t ->
                 entry_at t rel -> ~ yaml_name (last rel "")) ->
  yaml_files env = [].
Proof.
  intros H. destruct (yaml_files env) as [|p l] eqn:E; [reflexivity|].
  assert (Hp : In p (yaml_files env)) by (rewrite E; now left).
  apply yaml_files_spec in Hp. destruct Hp as (t & rel & Et & He & Hy & _).
  now destruct (H t rel Et He).
Qed.

(** X13. When [resources/exps] is absent, or holds no entry of any kind
    (regular file or directory) whose name ends in [.yaml] or [.yml],
    [get_yaml_configs] returns the empty list; it returns, it does not
    raise. *)
Theorem get_yaml_configs_empty (env : Env) :
  path_exists env (yaml_dir env) = false
  \/ (forall t rel, lookup (fs env) (parts (yaml_dir env)) = Some t ->
                    entry_at t rel -> ~ yaml_name (last rel "")) ->
  get_yaml_configs env = Ok [].
Proof.
  intros H. destruct (get_yaml_configs_eq env) as (rels & Es & E).
  rewrite E. destruct H as [-> | H]; [reflexivity|].
  rewrite (no_yaml_files_nil env H) in Es.
  destruct rels; [|discriminate]. now destruct (path_exists _ _).
Qed.

Lemma yaml_files_absent (env : Env) :
  path_exists env (yaml_dir env) = false -> yaml_files env = [].
Proof.
  intros H. apply no_yaml_files_nil. intros t rel Et.
  unfold path_exists in H. now rewrite Et in H.
Qed.

(** The entries are those of the sorted files, in that order. *)
Lemma get_yaml_configs_entries (env : Env) :
  exists rels,
    sorted (yaml_files env) = map (below_yaml_dir env) rels
    /\ get_yaml_configs env = Ok (map (entry_of env) rels).
Proof.
  destruct (get_yaml_configs_eq env) as (rels & Es & E).
  exists rels. split; [exact Es|]. rewrite E.
  destruct (path_exists env (yaml_dir env)) eqn:Ex; [reflexivity|].
  rewrite (yaml_files_absent env Ex) in Es. now destruct rels.
Qed.

Lemma map_full_path_entries (env : Env) (rels : list (list string)) :
  map full_path (map (entry_of env) rels) = map (below_yaml_dir env) rels.
Proof. rewrite map_map. reflexivity. Qed.

Lemma ltb_below (env : Env) (rel1 rel2 : list string) :
  PurePath.ltb (below_yaml_dir env rel1) (below_yaml_dir env rel2)
  = match PurePath.compare_parts rel1 rel2 with Lt => true | _ => false end.
Proof.
  unfold PurePath.ltb, below_yaml_dir. cbn [root parts].
  rewrite !compare_parts_lex, !app_comm_cons.
  now rewrite (lex_app_prefix _ string_compare_refl).
Qed.

Lemma yaml_files_flat (env : Env) (es : list (string * node)) :
  lookup (fs env) (parts (yaml_dir env)) = Some (Dir es) ->
  (forall e, In e es -> snd e = File) ->
  yaml_files env
  = map (fun e => below_yaml_dir env [fst e])
        (filter (fun e => PyStr.fnmatch "*.yaml" (fst e)) es
         ++ filter (fun e => PyStr.fnmatch "*.yml" (fst e)) es).
Proof.
  intros Et Hf. unfold yaml_files. cbv zeta. cbn [flat_map]. unfold rglob.
  rewrite Et, !rglob_rel_flat, app_nil_r, !map_map, <- map_app by exact Hf.
  reflexivity.
Qed.

(** X12. [get_yaml_configs] returns exactly the entries of any kind
    (regular files and directories alike) found at any depth below
    [resources/exps] whose names end in [.yaml] or [.yml], ordered by the
    component-wise, case-sensitive lexicographic order of their paths.
    In particular a directory that lists the files [b.yaml], [a.yml] and
    [c.txt], in whatever order, yields [a.yml] then [b.yaml], without
    [c.txt].  The order tells upper from lower case: [B.yaml] comes before
    [a.yaml]. *)
Theorem get_yaml_configs_sorted_exact (env : Env) :
  exists configs,
    get_yaml_configs env = Ok configs
    /\ StronglySorted path_le (map full_path configs)
    /\ (forall p,
          In p (map full_path configs)
          <-> exists t rel,
                lookup (fs env) (parts (yaml_dir env)) = Some t
                /\ entry_at t rel
                /\ yaml_name (last rel "")
                /\ p = below_yaml_dir env rel)
    /\ (forall es,
          Permutation es [("b.yaml", File); ("a.yml", File); ("c.txt", File)] ->
          lookup (fs env) (parts (yaml_dir env)) = Some (Dir es) ->
          map full_path configs
          = [yaml_dir env // "a.yml"; yaml_dir env // "b.yaml"])
    /\ (path_le (yaml_dir env // "B.yaml") (yaml_dir env // "a.yaml")
        /\ ~ path_le (yaml_dir env // "a.yaml") (yaml_dir env // "B.yaml")).
Proof.
  destruct (get_yaml_configs_entries env) as (rels & Es & E).
  exists (map (entry_of env) rels). rewrite map_full_path_entries, <- Es.
  split; [exact E|]. split; [apply sorted_StronglySorted|]. split; [|split].
  - intros p. rewrite <- yaml_files_spec. split; apply Permutation_in.
    + apply sorted_perm.
    + symmetry. apply sorted_perm.
  - intros es Hperm Et.
    assert (Hf : forall e, In e es -> snd e = File).
    { intros e He. apply (Permutation_in _ Hperm) in He. simpl in He.
      destruct He as [<- | [<- | [<- | []]]]; reflexivity. }
    rewrite (yaml_files_flat env es Et Hf).
    pose proof (Permutation_filter (fun e => PyStr.fnmatch "*.yaml" (fst e)) _ _ Hperm) as H1.
    pose proof (Permutation_filter (fun e => PyStr.fnmatch "*.yml" (fst e)) _ _ Hperm) as H2.
    apply Permutation_sym, Permutation_length_1_inv in H1, H2.
    rewrite H1, H2. unfold sorted. simpl.
    rewrite ltb_below. reflexivity.
  - unfold path_le, PurePath.truediv. cbn [root parts].
    rewrite !compare_parts_lex, !app_comm_cons.
    rewrite !(lex_app_prefix _ string_compare_refl).
    split; [discriminate | intros H; now apply H].
Qed.

(** Every returned dictionary is the entry of a matching file. *)
Lemma discovered_entry (env : Env) (configs : list config) (c : config) :
  get_yaml_configs env = Ok configs -> In c configs ->
  exists t rel,
    lookup (fs env) (parts (yaml_dir env)) = Some t
    /\ entry_at t rel /\ yaml_name (last rel "") /\ c = entry_of env rel.
Proof.
  intros E Hc. destruct (get_yaml_configs_entries env) as (rels & Es & E').
  rewrite E' in E. injection E as <-.
  apply in_map_iff in Hc. destruct Hc as (rel & <- & Hrel).
  assert (Hp : In (below_yaml_dir env rel) (yaml_files env)).
  { apply (Permutation_in _ (sorted_perm _)). rewrite Es. now apply in_map. }
  apply yaml_files_spec in Hp. destruct Hp as (t & rel' & Et & He & Hy & Eq).
  injection Eq as Eq. apply app_inv_head in Eq. subst rel'.
  now exists t, rel.
Qed.

Lemma entry_at_nonempty (t : node) (rel : list string) : entry_at t rel -> rel <> [].
Proof. now destruct 1. Qed.

Lemma string_length_app (a b : string) :
  String.length (a ++ b) = (String.length a + String.length b)%nat.
Proof. induction a as [|c a IH]; simpl; [reflexivity | now rewrite IH]. Qed.

Lemma substring_prefix (a b : string) : substring 0 (String.length a) (a ++ b) = a.
Proof.
  induction a as [|c a IH]; simpl; [now destruct b | now rewrite IH].
Qed.

Lemma rfind_dot_app (a b : string) :
  PyStr.rfind_dot (a ++ b)
  = match PyStr.rfind_dot b with
    | Some i => Some (String.length a + i)%nat
    | None => PyStr.rfind_dot a
    end.
Proof.
  induction a as [|c a IH]; simpl.
  - now destruct (PyStr.rfind_dot b).
  - rewrite IH. now destruct (PyStr.rfind_dot b).
Qed.

(** The stem of a name that ends with an extension [ext] of the shape
    "dot, then at least one character without dot". *)
Lemma stem_extension (p : PurePath) (s ext : string) :
  PurePath.name p = (s ++ ext)%string ->
  PyStr.rfind_dot ext = Some O -> (2 <= String.length ext)%nat ->
  PurePath.stem p = if (s =? "")%string then ext else s.
Proof.
  intros En Hd Hl. unfold PurePath.stem. rewrite En, rfind_dot_app, Hd.
  rewrite string_length_app, Nat.add_0_r.
  destruct s as [|c s]; [reflexivity|].
  change (String c s =? "")%string with false. cbv iota.
  replace (0 <? String.length (String c s))%nat with true
    by (symmetry; apply Nat.ltb_lt; simpl; lia).
  replace (String.length (String c s)
           <? String.length (String c s) + String.length ext - 1)%nat with true
    by (symmetry; apply Nat.ltb_lt; lia).
  apply substring_prefix.
Qed.

Lemma join_ends_with_last (sep : string) (l : list string) :
  l <> [] -> ends_with (PyStr.join sep l) (last l "").
Proof.
  induction l as [|x l IH]; [congruence|]. intros _.
  destruct l as [|y l].
  - now exists "".
  - destruct IH as (s0 & E); [discriminate|].
    exists (x ++ sep ++ s0)%string.
    change (PyStr.join sep (x :: y :: l))
      with (x ++ sep ++ PyStr.join sep (y :: l))%string.
    rewrite E. change (last (x :: y :: l) "") with (last (y :: l) "").
    now rewrite !string_app_assoc.
Qed.

Lemma str_ends_with_name (p : PurePath) :
  parts p <> [] -> ends_with (PurePath.str p) (PurePath.name p).
Proof.
  intros H. destruct (join_ends_with_last "/" (parts p) H) as (s0 & E).
  exists (root p ++ s0)%string. unfold PurePath.str, PurePath.name.
  destruct (parts p) as [|x l] eqn:Ep; [congruence|].
  rewrite string_app_assoc, <- E. now destruct (root p).
Qed.

Lemma ends_with_trans (a b c : string) : ends_with a b -> ends_with b c -> ends_with a c.
Proof.
  intros (s1 & ->) (s2 & ->). exists (s1 ++ s2)%string.
  now rewrite string_app_assoc.
Qed.

Lemma name_below (env : Env) (rel : list string) :
  rel <> [] -> PurePath.name (below_yaml_dir env rel) = last rel "".
Proof.
  intros H. unfold PurePath.name, below_yaml_dir. cbn [parts].
  destruct rel as [|x rel]; [congruence|]. apply last_app_cons.
Qed.

(** C9. For every dictionary returned by [get_yaml_configs]: joining the
    resources directory with ['path'] gives back ['full_path'] (and
    ['path'] is ['full_path'] taken relative to the resources directory);
    ['name'] is the stem of the file, that is the file name without its
    [.yaml] or [.yml] ending, or the whole name for a file called just
    [.yaml] or [.yml]; and ['full_path'] ends in [.yaml] or [.yml]. *)
Theorem config_fields_roundtrip (env : Env) (configs : list config) (c : config) :
  get_yaml_configs env = Ok configs -> In c configs ->
  PurePath.joinpath (resources_dir env) (path c) = full_path c
  /\ PurePath.relative_to (full_path c) (resources_dir env) = Ok (path c)
  /\ name c = PurePath.stem (full_path c)
  /\ (PurePath.name (full_path c) = (name c ++ ".yaml")%string
      \/ PurePath.name (full_path c) = (name c ++ ".yml")%string
      \/ (PurePath.name (full_path c) = name c
          /\ (name c = ".yaml" \/ name c = ".yml")))
  /\ (ends_with (PurePath.str (full_path c)) ".yaml"
      \/ ends_with (PurePath.str (full_path c)) ".yml").
Proof.
  intros E Hc.
  destruct (discovered_entry env configs c E Hc) as (t & rel & Et & He & Hy & ->).
  pose proof (entry_at_nonempty _ _ He) as Hne.
  pose proof (name_below env rel Hne) as Hn.
  cbn [path name full_path entry_of].
  split; [|split; [|split; [reflexivity|split]]].
  - rewrite joinpath_relative. symmetry. apply below_yaml_dir_resources.
  - rewrite below_yaml_dir_resources. apply relative_to_below.
  - destruct Hy as [(s & Es) | (s & Es)]; rewrite <- Hn in Es.
    + rewrite (stem_extension _ s ".yaml" Es eq_refl) by (simpl; lia).
      destruct s; [right; right | left]; simpl; auto.
    + rewrite (stem_extension _ s ".yml" Es eq_refl) by (simpl; lia).
      destruct s; [right; right | right; left]; simpl; auto.
  - assert (Hp : parts (below_yaml_dir env rel) <> []).
    { unfold below_yaml_dir. cbn [parts]. intros H.
      apply app_eq_nil in H. now destruct H. }
    pose proof (str_ends_with_name _ Hp) as Hs. rewrite Hn in Hs.
    destruct Hy as [Hy | Hy]; [left | right]; eapply ends_with_trans; eauto.
Qed.

(** ** Claims about [run_experiment] *)



Lemma run_experiment_result (env : Env) (exe : PurePath) (c : config) (st : state) :
  snd (fst (run_experiment env exe c st))
  = match spawn env (get_project_root env) (command_line exe c) with
    | Exited rc => Ok (rc =? 0)
    | NoSuchFile => Ok false
    | SpawnError => Raise OSError
    end
  /\ snd (run_experiment env exe c st) = mkState (stdin st) (get_project_root env).
Proof.
  unfold run_experiment, command_line. run_monad.
  destruct (spawn env (get_project_root env) _) as [rc| |];
    [destruct (rc =? 0)|..]; split; reflexivity.
Qed.

Lemma msg_failed_not_found (rc : Z) (exe : PurePath) : msg_failed rc <> msg_not_found exe.
Proof. unfold msg_failed, msg_not_found, nl. simpl. discriminate. Qed.

(** C2. [run_experiment] returns [True] exactly when the child ended with
    status zero.  A nonzero status gives [False] after the message with the
    return code; a program that is not there at spawn time gives [False]
    after the "could not find executable" message; the two messages are
    never the same. *)
Theorem run_experiment_reports (env : Env) (exe : PurePath) (c : config) (st : state) :
  let res := run_experiment env exe c st in
  let r := snd (fst res) in
  let out := fst (fst res) in
  let child := spawn env (get_project_root env) (command_line exe c) in
  (r = Ok true <-> child = Exited 0)
  /\ (child = Exited 0 -> last out (Print "") = Print msg_completed)
  /\ (forall rc, child = Exited rc -> rc <> 0 ->
        r = Ok false /\ last out (Print "") = Print (msg_failed rc))
  /\ (child = NoSuchFile ->
        r = Ok false /\ last out (Print "") = Print (msg_not_found exe))
  /\ (forall rc, msg_failed rc <> msg_not_found exe).
Proof.
  cbv zeta. unfold run_experiment, command_line. run_monad.
  destruct (spawn env (get_project_root env) _) as [rc| |] eqn:Ec.
  - destruct (rc =? 0) eqn:E0.
    + apply Z.eqb_eq in E0. subst rc.
      split; [tauto|]. split; [reflexivity|]. split; [|split].
      * intros rc' [= <-] Hrc. congruence.
      * discriminate.
      * intros rc'. apply msg_failed_not_found.
    + apply Z.eqb_neq in E0.
      split; [split; [discriminate | intros [= ->]; congruence]|].
      split; [intros [= ->]; congruence|]. split; [|split].
      * intros rc' [= <-] _. split; reflexivity.
      * discriminate.
      * intros rc'. apply msg_failed_not_found.
  - split; [split; discriminate|]. split; [discriminate|]. split; [|split].
    + discriminate.
    + intros _. split; reflexivity.
    + intros rc'. apply msg_failed_not_found.
  - split; [split; discriminate|]. split; [discriminate|]. split; [|split].
    + discriminate.
    + discriminate.
    + intros rc'. apply msg_failed_not_found.
Qed.

Lemma below_yaml_dir_root (env : Env) (rel : list string) :
  below_yaml_dir env rel
  = mkPath (root (get_project_root env))
           (parts (get_project_root env) ++ "resources" :: "exps" :: rel).
Proof.
  unfold below_yaml_dir, yaml_dir. simpl. now rewrite <- !app_assoc.
Qed.

(** C8. For an entry [c] that [get_yaml_configs] returned, the only acts of
    [run_experiment] on the process are: change the working directory to
    the project root, then spawn, from there, the two-element command
    [executable, c's 'path'].  That second argument is the file taken
    relative to the resources directory: it starts at [exps], where the
    path relative to the project root starts at [resources]. *)
Theorem run_experiment_argv
  (env : Env) (exe : PurePath) (configs : list config) (c : config) (st : state) :
  get_yaml_configs env = Ok configs -> In c configs ->
  filter acts (fst (fst (run_experiment env exe c st)))
  = [ Chdir (get_project_root env);
      Spawn (get_project_root env) [PurePath.str exe; PurePath.str (path c)] ]
  /\ PurePath.relative_to (full_path c) (resources_dir env) = Ok (path c)
  /\ exists rel,
       path c = mkPath "" ("exps" :: rel)
       /\ PurePath.relative_to (full_path c) (get_project_root env)
          = Ok (mkPath "" ("resources" :: "exps" :: rel)).
Proof.
  intros E Hc. split; [|split].
  - unfold run_experiment. run_monad.
    destruct (spawn env (get_project_root env) _) as [rc| |];
      [destruct (rc =? 0)|..]; reflexivity.
  - destruct (discovered_entry env configs c E Hc) as (t & rel & _ & _ & _ & ->).
    cbn [full_path path entry_of].
    rewrite below_yaml_dir_resources. apply relative_to_below.
  - destruct (discovered_entry env configs c E Hc) as (t & rel & _ & _ & _ & ->).
    exists rel. split; [reflexivity|].
    cbn [full_path entry_of]. rewrite below_yaml_dir_root. apply relative_to_below.
Qed.

(** ** Claims about the menu and the selection loop *)

Lemma lower_char_q (c : ascii) :
  PyStr.lower_char c = "q"%char <-> c = "q"%char \/ c = "Q"%char.
Proof.
  split.
  - intros H.
    destruct c as [[] [] [] [] [] [] [] []]; vm_compute in H;
      try discriminate; auto.
  - intros [-> | ->]; reflexivity.
Qed.

Lemma lower_q (s : string) : PyStr.lower s = "q" <-> s = "q" \/ s = "Q".
Proof.
  split.
  - destruct s as [|c [|c' s]]; simpl; try discriminate.
    intros [= H]. apply lower_char_q in H. destruct H as [-> | ->]; auto.
  - intros [-> | ->]; reflexivity.
Qed.

Lemma lstrip_head (s : string) :
  PyStr.lstrip s = "" \/ exists c s', PyStr.lstrip s = String c s' /\ PyStr.isspace c = false.
Proof.
  induction s as [|c s IH]; simpl; [now left|].
  destruct (PyStr.isspace c) eqn:E; [exact IH|]. right. now exists c, s.
Qed.

Lemma rstrip_idem (s : string) : PyStr.rstrip (PyStr.rstrip s) = PyStr.rstrip s.
Proof.
  induction s as [|c s IH]; simpl; [reflexivity|].
  destruct (PyStr.isspace c && (PyStr.rstrip s =? "")%string) eqn:E; [reflexivity|].
  simpl. now rewrite IH, E.
Qed.

Lemma strip_idem (s : string) : PyStr.strip (PyStr.strip s) = PyStr.strip s.
Proof.
  unfold PyStr.strip.
  destruct (lstrip_head s) as [-> | (c & s' & -> & Hc)]; [reflexivity|].
  assert (E : PyStr.rstrip (String c s') = String c (PyStr.rstrip s'))
    by (simpl; now rewrite Hc).
  rewrite E. simpl PyStr.lstrip. rewrite Hc. rewrite <- E. apply rstrip_idem.
Qed.

Lemma int_strip (s : string) : PyStr.int (PyStr.strip s) = PyStr.int s.
Proof. unfold PyStr.int. now rewrite strip_idem. Qed.

Lemma int_not_quit (s : string) (n : Z) :
  PyStr.int s = Some n -> PyStr.lower (PyStr.strip s) <> "q".
Proof.
  intros Hn Hq. apply lower_q in Hq. unfold PyStr.int in Hn.
  destruct Hq as [Hq | Hq]; rewrite Hq in Hn; discriminate.
Qed.

Lemma len_nth_error {A} (l : list A) (n : Z) :
  1 <= n <= len l -> exists a, nth_error l (Z.to_nat (n - 1)) = Some a.
Proof.
  unfold len. intros H.
  destruct (nth_error l (Z.to_nat (n - 1))) as [a|] eqn:E; [now exists a|].
  apply nth_error_None in E. lia.
Qed.


Lemma loop_quit (configs : list config) (line : string) (rest : list string) :
  PyStr.lower (PyStr.strip line) = "q" ->
  get_user_choice_loop configs (line :: rest)
  = ([Prompt (choice_prompt configs); Print "Program exit"],
     Raise (SystemExit 0), rest).
Proof. intros H. cbn [get_user_choice_loop]. now rewrite H. Qed.

Lemma loop_not_int (configs : list config) (line : string) (rest : list string) :
  PyStr.lower (PyStr.strip line) <> "q" ->
  PyStr.int (PyStr.strip line) = None ->
  get_user_choice_loop configs (line :: rest)
  = reprompt configs "Please enter a valid number or 'q' to quit" rest.
Proof.
  intros Hq Hi. cbn [get_user_choice_loop].
  apply String.eqb_neq in Hq. now rewrite Hq, Hi.
Qed.

Lemma loop_out_of_range
  (configs : list config) (line : string) (rest : list string) (n : Z) :
  PyStr.int (PyStr.strip line) = Some n ->
  ~ (1 <= n <= len configs) ->
  get_user_choice_loop configs (line :: rest)
  = reprompt configs
      ("Please enter a number between 1 and " ++ PyStr.of_int (len configs)) rest.
Proof.
  intros Hi Hr. cbn [get_user_choice_loop].
  rewrite int_strip in Hi. pose proof (int_not_quit _ _ Hi) as Hq.
  rewrite <- int_strip in Hi.
  apply String.eqb_neq in Hq. rewrite Hq, Hi.
  replace ((1 <=? n) && (n <=? len configs)) with false; [reflexivity|].
  symmetry. apply andb_false_iff. rewrite Z.leb_gt, Z.leb_gt. lia.
Qed.

Lemma loop_in_range
  (configs : list config) (line : string) (rest : list string) (n : Z) :
  PyStr.int (PyStr.strip line) = Some n ->
  1 <= n <= len configs ->
  exists c,
    nth_error configs (Z.to_nat (n - 1)) = Some c
    /\ get_user_choice_loop configs (line :: rest)
       = ([Prompt (choice_prompt configs)], Ok c, rest).
Proof.
  intros Hi Hr. destruct (len_nth_error configs n Hr) as (c & Hc).
  exists c. split; [exact Hc|]. cbn [get_user_choice_loop].
  rewrite int_strip in Hi. pose proof (int_not_quit _ _ Hi) as Hq.
  rewrite <- int_strip in Hi.
  apply String.eqb_neq in Hq. rewrite Hq, Hi, Hc.
  replace ((1 <=? n) && (n <=? len configs)) with true; [reflexivity|].
  symmetry. apply andb_true_iff. rewrite !Z.leb_le. lia.
Qed.

Lemma loop_prompts_first (configs : list config) (lines : list string) :
  exists out, fst (fst (get_user_choice_loop configs lines))
              = Prompt (choice_prompt configs) :: out.
Proof.
  destruct lines as [|line rest]; cbn [get_user_choice_loop]; [now eexists|].
  destruct (PyStr.lower (PyStr.strip line) =? "q")%string; [now eexists|].
  destruct (PyStr.int (PyStr.strip line)) as [n|].
  - destruct ((1 <=? n) && (n <=? len configs)).
    + destruct (nth_error configs _); now eexists.
    + destruct (get_user_choice_loop configs rest) as [[out r] rest']. now eexists.
  - destruct (get_user_choice_loop configs rest) as [[out r] rest']. now eexists.
Qed.

(** C4. A line that is not the quit letter and, once stripped, is not an
    integer or is an integer outside [1..N] is rejected: the loop prints a
    message and goes on with the next line, starting with a new prompt,
    exactly as if it were called afresh on the remaining input; so do ["0"],
    ["-1"] and ["7"] before a menu of three.  On the quit letter the loop
    raises [SystemExit 0]: whatever was to follow the call does not run and
    the process status is 0. *)
Theorem get_user_choice_rejects_or_quits
  (configs : list config) (line : string) (rest : list string) :
  let choice := PyStr.strip line in
  (PyStr.lower choice <> "q" ->
   PyStr.int choice = None
   \/ (exists n, PyStr.int choice = Some n /\ ~ (1 <= n <= len configs)) ->
   (exists msg, get_user_choice_loop configs (line :: rest)
                = reprompt configs msg rest)
   /\ exists out, fst (fst (get_user_choice_loop configs rest))
                  = Prompt (choice_prompt configs) :: out)
  /\ (forall c1 c2 c3 bad, In bad ["0"; "-1"; "7"] ->
        exists msg, get_user_choice_loop [c1; c2; c3] (bad :: rest)
                    = reprompt [c1; c2; c3] msg rest)
  /\ (PyStr.lower choice = "q" ->
      forall (A : Type) (k : config -> M A) (d : PurePath),
        (c <- get_user_choice configs ;; k c) (mkState (line :: rest) d)
        = ([Prompt (choice_prompt configs); Print "Program exit"],
           Raise (SystemExit 0), mkState rest d))
  /\ (forall (A : Type) (k : config -> M A) (d : PurePath),
        (c <- get_user_choice configs ;; k c) (mkState ("q" :: rest) d)
        = ([Prompt (choice_prompt configs); Print "Program exit"],
           Raise (SystemExit 0), mkState rest d))
  /\ exit_status (Raise (SystemExit 0)) = 0.
Proof.
  cbv zeta. split; [|split; [|split; [|split]]].
  - intros Hq Hbad. split; [|apply loop_prompts_first].
    destruct Hbad as [Hi | (n & Hi & Hr)].
    + eexists. now apply loop_not_int.
    + eexists. eapply loop_out_of_range; eauto.
  - intros c1 c2 c3 bad Hbad. simpl in Hbad.
    destruct Hbad as [<- | [<- | [<- | []]]]; eexists;
      (eapply loop_out_of_range; [reflexivity | unfold len; simpl; lia]).
  - intros Hq A k d. unfold bind, get_user_choice. cbn [stdin cwd].
    now rewrite (loop_quit configs line rest Hq).
  - intros A k d. unfold bind, get_user_choice. cbn [stdin cwd].
    now rewrite (loop_quit configs "q" rest eq_refl).
  - reflexivity.
Qed.

Lemma enumerate_nth {A} (l : list A) (start : Z) (i : nat) :
  nth_error (enumerate l start) i
  = option_map (fun x => (start + Z.of_nat i, x)) (nth_error l i).
Proof.
  revert start i. induction l as [|a l IH]; intros start [|i]; simpl; try reflexivity.
  - now rewrite Z.add_0_r.
  - rewrite IH. destruct (nth_error l i); simpl; [|reflexivity].
    do 2 f_equal. lia.
Qed.

Lemma for_each_print {A} (f : A -> string) (l : list A) (st : state) :
  for_each l (fun x => print (f x)) st = (map (fun x => Print (f x)) l, Ok tt, st).
Proof.
  induction l as [|a l IH]; [reflexivity|].
  cbn [for_each map]. unfold bind at 1. unfold print at 1. now rewrite IH.
Qed.

Lemma display_configs_run (configs : list config) (st : state) :
  display_configs configs st
  = (Print (nl ++ "Available configuration files:")
       :: Print (PyStr.repeat "-" 50)
       :: map (fun e => Print (menu_line e)) (enumerate configs 1)
       ++ [Print (PyStr.repeat "-" 50)],
     Ok tt, st).
Proof.
  unfold display_configs.
  unfold bind at 1. unfold print at 1.
  unfold bind at 1. unfold print at 1.
  unfold bind. rewrite for_each_print. reflexivity.
Qed.

(** C6. The menu numbers the entries from 1 in list order, and a selection
    [n] with [1 <= n <= N] returns the entry shown under [n]: the line of
    the menu at position [n-1] reads "n. name" for the very entry
    [configs[n-1]] that [get_user_choice] returns, and two numbers in range
    that select the same position are equal. *)
Theorem menu_index_bijection
  (configs : list config) (n : Z) (line : string) (rest : list string) (st : state) :
  configs <> [] -> 1 <= n <= len configs ->
  PyStr.int (PyStr.strip line) = Some n ->
  exists c,
    nth_error configs (Z.to_nat (n - 1)) = Some c
    /\ get_user_choice_loop configs (line :: rest)
       = ([Prompt (choice_prompt configs)], Ok c, rest)
    /\ (exists menu,
          fst (fst (display_configs configs st))
          = Print (nl ++ "Available configuration files:")
              :: Print (PyStr.repeat "-" 50)
              :: menu ++ [Print (PyStr.repeat "-" 50)]
          /\ List.length menu = List.length configs
          /\ nth_error menu (Z.to_nat (n - 1))
             = Some (Print (PyStr.of_int n ++ ". " ++ name c)))
    /\ (forall m, 1 <= m <= len configs ->
          Z.to_nat (m - 1) = Z.to_nat (n - 1) -> m = n).
Proof.
  intros _ Hr Hi. destruct (loop_in_range configs line rest n Hi Hr) as (c & Hc & El).
  exists c. split; [exact Hc|]. split; [exact El|]. split.
  - exists (map (fun e => Print (menu_line e)) (enumerate configs 1)).
    rewrite display_configs_run. split; [reflexivity|]. split.
    + rewrite length_map. clear. generalize 1.
      induction configs as [|a l IH]; intros z; simpl; [reflexivity|].
      now rewrite IH.
    + rewrite nth_error_map, enumerate_nth, Hc.
      cbn [option_map]. unfold menu_line. cbn [fst snd].
      replace (1 + Z.of_nat (Z.to_nat (n - 1))) with n by lia. reflexivity.
  - intros m Hm E. lia.
Qed.

(** C10. [get_user_choice] reads a line through [strip]: a line and its
    stripped form are treated alike.  The quit test is on the lower-cased
    stripped line, so it accepts ["q"] and ["Q"] and nothing else.  Hence
    [" q "] and ["Q"] behave as ["q"], and [" 2 "] behaves as ["2"]. *)
Theorem get_user_choice_normalises
  (configs : list config) (line : string) (rest : list string) :
  get_user_choice_loop configs (line :: rest)
  = get_user_choice_loop configs (PyStr.strip line :: rest)
  /\ (PyStr.lower (PyStr.strip line) = "q"
      <-> PyStr.strip line = "q" \/ PyStr.strip line = "Q")
  /\ (PyStr.lower (PyStr.strip line) = "q" ->
      get_user_choice_loop configs (line :: rest)
      = get_user_choice_loop configs ("q" :: rest))
  /\ get_user_choice_loop configs (" q " :: rest)
     = get_user_choice_loop configs ("q" :: rest)
  /\ get_user_choice_loop configs ("Q" :: rest)
     = get_user_choice_loop configs ("q" :: rest)
  /\ get_user_choice_loop configs (" 2 " :: rest)
     = get_user_choice_loop configs ("2" :: rest).
Proof.
  split; [|split; [|split; [|split; [|split]]]].
  - cbn [get_user_choice_loop]. now rewrite strip_idem.
  - apply lower_q.
  - intros Hq. rewrite (loop_quit configs line rest Hq).
    now rewrite (loop_quit configs "q" rest eq_refl).
  - now rewrite !loop_quit.
  - now rewrite !loop_quit.
  - cbn [get_user_choice_loop]. reflexivity.
Qed.

(** ** Claims about [main] *)


Lemma loop_result (configs : list config) (lines : list string) :
  match get_user_choice_loop configs lines with
  | (_, Ok c, _) => In c configs
  | (_, Raise e, _) => e = SystemExit 0 \/ e = EOFError
  end.
Proof.
  induction lines as [|line rest IH]; cbn [get_user_choice_loop]; [now right|].
  destruct (PyStr.lower (PyStr.strip line) =? "q")%string; [now left|].
  destruct (PyStr.int (PyStr.strip line)) as [n|].
  - destruct ((1 <=? n) && (n <=? len configs)) eqn:E.
    + apply andb_prop in E. destruct E as [E1 E2]. apply Z.leb_le in E1, E2.
      destruct (len_nth_error configs n (conj E1 E2)) as (c & Hc).
      rewrite Hc. eapply nth_error_In; eauto.
    + now destruct (get_user_choice_loop configs rest) as [[out r] rest'].
  - now destruct (get_user_choice_loop configs rest) as [[out r] rest'].
Qed.

Lemma main_outcome (env : Env) (lines : list string) :
  outcome env lines
  = match get_executable_path env with
    | None => after_pause lines (Raise (SystemExit 1))
    | Some exe =>
        if negb (path_exists env (yaml_dir env))
        then after_pause lines (Raise (SystemExit 1))
        else
          match get_yaml_configs env with
          | Raise e => Raise e
          | Ok [] => after_pause lines (Raise (SystemExit 1))
          | Ok configs =>
              match get_user_choice_loop configs lines with
              | (_, Raise e, _) => Raise e
              | (_, Ok c, rest) =>
                  match spawn env (get_project_root env) (command_line exe c) with
                  | SpawnError => Raise OSError
                  | _ => after_pause rest (Ok tt)
                  end
              end
          end
    end.
Proof.
  unfold outcome, run, main. fold (yaml_dir env).
  destruct (get_executable_path env) as [exe|].
  - destruct (path_exists env (yaml_dir env)); cbn [negb].
    + destruct (get_yaml_configs env) as [[|c0 configs]|e].
      * run_monad. now destruct lines.
      * unfold bind at 1. unfold print at 1.
        unfold bind at 1. unfold print at 1.
        unfold bind at 1. unfold lift at 1.
        unfold bind at 1. rewrite display_configs_run.
        unfold bind at 1. unfold get_user_choice. cbn [stdin cwd].
        destruct (get_user_choice_loop (c0 :: configs) lines) as [[out r] rest].
        destruct r as [c|e]; [|reflexivity].
        unfold bind at 1.
        pose proof (run_experiment_result env exe c (mkState rest (start_dir env)))
          as [Hr Hs].
        destruct (run_experiment env exe c (mkState rest (start_dir env)))
          as [[out' r'] st'].
        cbn [fst snd] in Hr, Hs. subst r' st'.
        destruct (spawn env (get_project_root env) (command_line exe c));
          run_monad; try reflexivity; now destruct rest.
      * reflexivity.
    + run_monad. now destruct lines.
  - run_monad. now destruct lines.
Qed.


Lemma main_cases (env : Env) (lines : list string) :
  (start_failure env
   /\ outcome env lines = after_pause lines (Raise (SystemExit 1)))
  \/ (~ start_failure env
      /\ exists exe configs,
           get_executable_path env = Some exe
           /\ get_yaml_configs env = Ok configs
           /\ outcome env lines = flow_outcome env exe configs lines).
Proof.
  rewrite main_outcome. unfold start_failure, flow_outcome.
  destruct (get_executable_path env) as [exe|]; [|left; auto].
  destruct (path_exists env (yaml_dir env)) eqn:Ex; cbn [negb]; [|left; auto].
  destruct (get_yaml_configs_total env) as (configs & Ec). rewrite Ec.
  destruct configs as [|c0 configs]; [left; auto|].
  right. split.
  - intros [H | [H | H]]; discriminate.
  - now exists exe, (c0 :: configs).
Qed.

Lemma flow_outcome_cases
  (env : Env) (exe : PurePath) (configs : list config) (lines : list string) :
  let o := flow_outcome env exe configs lines in
  o = Ok tt \/ o = Raise (SystemExit 0) \/ o = Raise EOFError \/ o = Raise OSError.
Proof.
  cbv zeta. unfold flow_outcome. pose proof (loop_result configs lines) as H.
  destruct (get_user_choice_loop configs lines) as [[out r] rest].
  destruct r as [c|e].
  - destruct (spawn env _ _); destruct rest; simpl; auto.
  - destruct H as [-> | ->]; auto.
Qed.

(** C3 (as the code has it). [main] ends with status 0 exactly when the
    user quits or the flow completes, which needs an executable, the
    directory and at least one configuration; a completed flow gives 0
    whatever the child returned.  [sys.exit(1)] is reached in exactly the
    three start-up failures (given a line to read at the pause), and each
    of them ends with status 1.  Status 1 is moreover what the process ends
    with when an exception escapes: [EOFError] when standard input ends at
    a prompt, or the error of a spawn that failed for another reason than
    a missing program. *)
Theorem main_exit_status (env : Env) (lines : list string) :
  let o := outcome env lines in
  (exit_status o = 0 \/ exit_status o = 1)
  /\ (exit_status o = 0 <-> o = Raise (SystemExit 0) \/ o = Ok tt)
  /\ (o = Raise (SystemExit 0) \/ o = Ok tt -> ~ start_failure env)
  /\ (start_failure env -> exit_status o = 1)
  /\ (o = Raise (SystemExit 1) <-> start_failure env /\ lines <> [])
  /\ (exit_status o = 1
      <-> start_failure env \/ o = Raise EOFError \/ o = Raise OSError)
  /\ (forall exe configs out rest,
        get_executable_path env = Some exe ->
        get_yaml_configs env = Ok configs -> configs <> [] ->
        get_user_choice_loop configs lines = (out, Raise (SystemExit 0), rest) ->
        o = Raise (SystemExit 0))
  /\ (forall exe configs out c rest,
        get_executable_path env = Some exe ->
        get_yaml_configs env = Ok configs -> configs <> [] ->
        get_user_choice_loop configs lines = (out, Ok c, rest) ->
        rest <> [] ->
        spawn env (get_project_root env) (command_line exe c) <> SpawnError ->
        o = Ok tt).
Proof.
  cbv zeta.
  destruct (main_cases env lines) as [[Hf Eo] | [Hf (exe & configs & Ee & Ec & Eo)]].
  - rewrite Eo.
    assert (Hflow : forall exe configs, get_executable_path env = Some exe ->
                      get_yaml_configs env = Ok configs -> configs <> [] -> False).
    { intros exe configs Ee Ec Hne. destruct Hf as [H | [H | H]]; try congruence.
      destruct (get_yaml_configs_eq env) as (rels & _ & E).
      rewrite H in E. rewrite Ec in E. now injection E. }
    split; [|split; [|split; [|split; [|split; [|split; [|split]]]]]].
    + destruct lines; simpl; auto.
    + destruct lines; simpl; split; try discriminate; intros [H | H]; discriminate.
    + destruct lines; simpl; intros [H | H]; discriminate.
    + intros _. now destruct lines.
    + destruct lines as [|line rest]; cbn [after_pause]; split.
      * discriminate.
      * intros [_ H]. congruence.
      * intros _. split; [exact Hf | discriminate].
      * reflexivity.
    + split; [auto|]. intros _. now destruct lines.
    + intros exe configs out rest Ee Ec Hne. exfalso. eauto.
    + intros exe configs out c rest Ee Ec Hne. exfalso. eauto.
  - rewrite Eo.
    pose proof (flow_outcome_cases env exe configs lines) as Hc. cbv zeta in Hc.
    split; [|split; [|split; [|split; [|split; [|split; [|split]]]]]].
    + destruct Hc as [-> | [-> | [-> | ->]]]; simpl; auto.
    + destruct Hc as [-> | [-> | [-> | ->]]]; simpl; split; auto;
        try discriminate; intros [H | H]; discriminate.
    + intros _. exact Hf.
    + intros H. now destruct (Hf H).
    + split; [|intros [H _]; now destruct (Hf H)].
      intros H. destruct Hc as [Hc | [Hc | [Hc | Hc]]]; rewrite Hc in H; discriminate.
    + destruct Hc as [-> | [-> | [-> | ->]]]; simpl; split; auto;
        try discriminate; intros [H | [H | H]]; try discriminate; now destruct (Hf H).
    + intros exe' configs' out rest Ee' Ec' _ El.
      assert (configs' = configs) by congruence. subst configs'.
      unfold flow_outcome. now rewrite El.
    + intros exe' configs' out c rest Ee' Ec' _ El Hr Hs.
      assert (configs' = configs) by congruence.
      assert (exe' = exe) by congruence. subst configs' exe'.
      unfold flow_outcome. rewrite El.
      destruct (spawn env _ _); try congruence; now destruct rest.
Qed.


(** ** The claims at the sample environments *)

Lemma get_yaml_configs_empty_witness :
  get_yaml_configs (sample_env [] (Exited 0)) = Ok []
  /\ get_yaml_configs (sample_env [("exps", Dir [("c.txt", File)])] (Exited 0)) = Ok [].
Proof.
  split.
  - apply get_yaml_configs_empty. left. reflexivity.
  - apply get_yaml_configs_empty. right. intros t rel Et He.
    vm_compute in Et. injection Et as <-.
    inversion He as [es n t Hin | es n t rel' Hin He']; subst;
      destruct Hin as [[= <- <-] | []].
    + intros [(s & E) | (s & E)];
        destruct s as [|c1 [|c2 [|c3 [|c4 [|c5 [|c6 s]]]]]]; discriminate.
    + inversion He'.
Defined.

Lemma config_fields_roundtrip_witness :
  get_yaml_configs (sample_env [("exps", sample_exps)] (Exited 0))
  = Ok [sample_a; sample_b]
  /\ In sample_b [sample_a; sample_b]
  /\ PurePath.joinpath (mkPath "/" ["proj"; "resources"]) (path sample_b)
     = full_path sample_b
  /\ name sample_b = PurePath.stem (full_path sample_b)
  /\ PurePath.name (full_path sample_b) = "b.yaml".
Proof.
  split; [reflexivity|]. split; [right; left; reflexivity|].
  destruct (config_fields_roundtrip
              (sample_env [("exps", sample_exps)] (Exited 0))
              [sample_a; sample_b] sample_b eq_refl (or_intror (or_introl eq_refl)))
    as (H1 & _ & H3 & _).
  split; [exact H1|]. split; [exact H3 | reflexivity].
Defined.

Lemma run_experiment_argv_witness :
  get_yaml_configs (sample_env [("exps", sample_exps)] (Exited 1))
  = Ok [sample_a; sample_b]
  /\ In sample_a [sample_a; sample_b]
  /\ filter acts
       (fst (fst (run_experiment (sample_env [("exps", sample_exps)] (Exited 1))
                    sample_exe sample_a sample_state)))
     = [ Chdir (mkPath "/" ["proj"]);
         Spawn (mkPath "/" ["proj"]) ["/proj/build/bin/qiwu-example"; "exps/a.yml"] ].
Proof.
  split; [reflexivity|]. split; [left; reflexivity|].
  apply (run_experiment_argv
           (sample_env [("exps", sample_exps)] (Exited 1))
           sample_exe [sample_a; sample_b] sample_a sample_state
           eq_refl (or_introl eq_refl)).
Defined.

Lemma menu_index_bijection_witness :
  [sample_a; sample_b] <> []
  /\ 1 <= 2 <= len [sample_a; sample_b]
  /\ PyStr.int (PyStr.strip " 2 ") = Some 2
  /\ exists c,
       nth_error [sample_a; sample_b] 1 = Some c
       /\ get_user_choice_loop [sample_a; sample_b] [" 2 "; ""]
          = ([Prompt (choice_prompt [sample_a; sample_b])], Ok c, [""])
       /\ name c = "b".
Proof.
  assert (H0 : [sample_a; sample_b] <> []) by discriminate.
  assert (H1 : 1 <= 2 <= len [sample_a; sample_b]) by (unfold len; simpl; lia).
  assert (H2 : PyStr.int (PyStr.strip " 2 ") = Some 2) by reflexivity.
  split; [exact H0|]. split; [exact H1|]. split; [exact H2|].
  destruct (menu_index_bijection [sample_a; sample_b] 2 " 2 " [""] sample_state H0 H1 H2)
    as (c & Hc & Hl & _).
  exists c. split; [exact Hc|]. split; [exact Hl|].
  simpl in Hc. now injection Hc as <-.
Defined.

Lemma get_user_choice_rejects_or_quits_witness :
  PyStr.lower (PyStr.strip "7") <> "q"
  /\ (exists n, PyStr.int (PyStr.strip "7") = Some n
                /\ ~ (1 <= n <= len [sample_a; sample_b; sample_a]))
  /\ exists msg,
       get_user_choice_loop [sample_a; sample_b; sample_a] ["7"; "q"]
       = reprompt [sample_a; sample_b; sample_a] msg ["q"].
Proof.
  assert (H1 : PyStr.lower (PyStr.strip "7") <> "q") by discriminate.
  assert (H2 : exists n, PyStr.int (PyStr.strip "7") = Some n
                         /\ ~ (1 <= n <= len [sample_a; sample_b; sample_a])).
  { exists 7. split; [reflexivity|]. unfold len. simpl. lia. }
  split; [exact H1|]. split; [exact H2|].
  destruct (get_user_choice_rejects_or_quits [sample_a; sample_b; sample_a] "7" ["q"])
    as (H & _).
  apply H; [exact H1 | right; exact H2].
Defined.

(** Two runs that end with status 1 although an executable, the directory
    and configurations are there: standard input ends at the final pause;
    the spawn fails with an error other than a missing program. *)
Lemma main_exit_status_counterexample :
  ~ (forall env lines, exit_status (outcome env lines) = 1 -> start_failure env)
  /\ exit_status (outcome (sample_env [("exps", sample_exps)] (Exited 0)) ["1"]) = 1
  /\ exit_status (outcome (sample_env [("exps", sample_exps)] SpawnError) ["1"; ""]) = 1
  /\ ~ start_failure (sample_env [("exps", sample_exps)] (Exited 0))
  /\ ~ start_failure (sample_env [("exps", sample_exps)] SpawnError).
Proof.
  assert (Hs : forall child, ~ start_failure (sample_env [("exps", sample_exps)] child)).
  { intros child [H | [H | H]]; vm_compute in H; discriminate. }
  split; [|split; [reflexivity|split; [reflexivity|split; apply Hs]]].
  intros H. apply (Hs (Exited 0)). apply (H _ ["1"]). reflexivity.
Qed.

Example sorted_is_case_sensitive :
  sorted [mkPath "" ["exps"; "a.yaml"]; mkPath "" ["exps"; "B.yaml"];
          mkPath "" ["exps"; "a-b"; "x.yaml"]; mkPath "" ["exps"; "a"; "b.yaml"]]
  = [mkPath "" ["exps"; "B.yaml"]; mkPath "" ["exps"; "a"; "b.yaml"];
     mkPath "" ["exps"; "a-b"; "x.yaml"]; mkPath "" ["exps"; "a.yaml"]].
Proof. reflexivity. Qed.


(** * Further properties *)

(** ** Decimal numbers read back *)

Lemma strip_no_space (c : ascii) (s : string) :
  PyStr.isspace c = false ->
  PyStr.rstrip (String c s) = String c s ->
  PyStr.strip (String c s) = String c s.
Proof. intros Hc Hr. unfold PyStr.strip. simpl PyStr.lstrip. now rewrite Hc. Qed.

Lemma rstrip_digits (d : Decimal.uint) :
  PyStr.rstrip (NilEmpty.string_of_uint d) = NilEmpty.string_of_uint d.
Proof.
  induction d; simpl; [reflexivity|..]; now rewrite IHd.
Qed.

Lemma int_digits_of_uint (d : Decimal.uint) (acc : Z) :
  PyStr.int_digits acc (NilEmpty.string_of_uint d) = Some (digits_value d acc).
Proof.
  revert acc. induction d; intros acc; simpl; [reflexivity|..];
    rewrite IHd; do 2 f_equal; lia.
Qed.

Lemma digits_value_pos (d : Decimal.uint) (acc : positive) :
  digits_value d (Z.pos acc) = Z.pos (Pos.of_uint_acc d acc).
Proof.
  revert acc.
  induction d; intros acc; cbn [digits_value Pos.of_uint_acc]; [reflexivity|..];
    rewrite <- IHd; f_equal; lia.
Qed.

Lemma digits_value_zero (d : Decimal.uint) : digits_value d 0 = Z.of_uint d.
Proof.
  unfold Z.of_uint. induction d; simpl; try reflexivity;
    try exact IHd; apply digits_value_pos.
Qed.

Lemma int_unsigned_of_uint (d : Decimal.uint) :
  PyStr.int_unsigned (NilZero.string_of_uint d) = Some (Z.of_uint d).
Proof.
  rewrite <- digits_value_zero.
  destruct d; try reflexivity; simpl; apply int_digits_of_uint.
Qed.

Lemma strip_of_uint (d : Decimal.uint) :
  PyStr.strip (NilZero.string_of_uint d) = NilZero.string_of_uint d.
Proof.
  destruct d; try reflexivity; simpl NilZero.string_of_uint;
    (apply strip_no_space; [reflexivity | by_digits rstrip_digits d]).
Qed.

Lemma strip_of_int (z : Z) : PyStr.strip (PyStr.of_int z) = PyStr.of_int z.
Proof.
  unfold PyStr.of_int.
  destruct (Z.to_int z) as [d | d]; cbn [NilZero.string_of_int].
  - apply strip_of_uint.
  - apply strip_no_space; [reflexivity|].
    change (PyStr.rstrip (String "-" (NilZero.string_of_uint d)))
      with (String "-" (PyStr.rstrip (NilZero.string_of_uint d))).
    f_equal. destruct d; try reflexivity; by_digits rstrip_digits d.
Qed.

(** Within the cap on digits, [int] reads back what [str] wrote. *)
Lemma int_of_int (z : Z) :
  (PyStr.digit_count (PyStr.of_int z) <= PyStr.int_max_str_digits)%N ->
  PyStr.int (PyStr.of_int z) = Some z.
Proof.
  intros Hcap. unfold PyStr.int. cbv zeta. rewrite strip_of_int.
  apply N.ltb_ge in Hcap. rewrite Hcap. clear Hcap.
  unfold PyStr.of_int. rewrite <- (DecimalZ.of_to z) at 2.
  destruct (Z.to_int z) as [d | d]; cbn [NilZero.string_of_int Z.of_int].
  - rewrite <- int_unsigned_of_uint. destruct d; reflexivity.
  - cbn [Ascii.eqb Bool.eqb]. cbv iota. now rewrite int_unsigned_of_uint.
Qed.

Lemma digit_count_of_uint (d : Decimal.uint) :
  PyStr.digit_count (NilEmpty.string_of_uint d) = N.of_nat (Decimal.nb_digits d).
Proof.
  induction d; cbn [NilEmpty.string_of_uint PyStr.digit_count Decimal.nb_digits];
    [reflexivity|..];
    (change (PyStr.digit_of _) with (Some 0)
     || change (PyStr.digit_of _) with (Some 1)
     || change (PyStr.digit_of _) with (Some 2)
     || change (PyStr.digit_of _) with (Some 3)
     || change (PyStr.digit_of _) with (Some 4)
     || change (PyStr.digit_of _) with (Some 5)
     || change (PyStr.digit_of _) with (Some 6)
     || change (PyStr.digit_of _) with (Some 7)
     || change (PyStr.digit_of _) with (Some 8)
     || change (PyStr.digit_of _) with (Some 9));
    cbv iota; rewrite IHd; lia.
Qed.

Lemma digits_value_lower (d : Decimal.uint) (acc : Z) :
  0 <= acc -> acc * 10 ^ Z.of_nat (Decimal.nb_digits d) <= digits_value d acc.
Proof.
  revert acc. induction d; intros acc Hacc;
    cbn [digits_value Decimal.nb_digits]; [rewrite Z.pow_0_r; lia|..];
    rewrite Nat2Z.inj_succ, Z.pow_succ_r by lia;
    match goal with
    | |- _ <= digits_value _ ?a =>
        specialize (IHd a ltac:(lia));
        assert (0 < 10 ^ Z.of_nat (Decimal.nb_digits d))
          by (apply Z.pow_pos_nonneg; lia);
        nia
    end.
Qed.

(** The decimal digits of a positive number do not start with a zero. *)
Lemma to_uint_head (p : positive) :
  match Pos.to_uint p with
  | Decimal.Nil | Decimal.D0 _ => False
  | _ => True
  end.
Proof.
  pose proof (DecimalPos.Unsigned.to_of (Pos.to_uint p)) as H.
  rewrite DecimalPos.Unsigned.of_to in H. cbn [N.to_uint] in H.
  pose proof (DecimalPos.Unsigned.to_uint_nonnil p) as Hn.
  pose proof (DecimalPos.Unsigned.to_uint_nonzero p) as Hz.
  destruct (Pos.to_uint p) as [|u| | | | | | | | |]; auto.
  destruct u as [|u|u|u|u|u|u|u|u|u|u]; [now apply Hz|..];
    match type of H with
    | _ = Decimal.unorm (Decimal.D0 ?v) =>
        change (Decimal.unorm (Decimal.D0 v)) with (Decimal.unorm v) in H;
        assert (Hv : v <> Decimal.Nil) by discriminate;
        pose proof (DecimalFacts.nb_digits_unorm v Hv) as Hl;
        rewrite <- H in Hl; cbn [Decimal.nb_digits] in Hl; lia
    end.
Qed.

Lemma nb_digits_to_uint (p : positive) (n : nat) :
  Z.pos p < 10 ^ Z.of_nat n -> (Decimal.nb_digits (Pos.to_uint p) <= n)%nat.
Proof.
  intros Hlt.
  assert (Hv : digits_value (Pos.to_uint p) 0 = Z.pos p).
  { rewrite digits_value_zero. unfold Z.of_uint.
    now rewrite DecimalPos.Unsigned.of_to. }
  pose proof (to_uint_head p) as Hh.
  destruct (Nat.le_gt_cases (Decimal.nb_digits (Pos.to_uint p)) n) as [Hle | Hgt];
    [exact Hle | exfalso].
  destruct (Pos.to_uint p) as [|u|u|u|u|u|u|u|u|u|u]; try contradiction;
    cbn [digits_value Decimal.nb_digits] in Hv, Hgt;
    match type of Hv with
    | digits_value _ ?a = _ =>
        pose proof (digits_value_lower u a ltac:(lia)) as Hlow
    end;
    assert (Hp : 10 ^ Z.of_nat n <= 10 ^ Z.of_nat (Decimal.nb_digits u))
      by (apply Z.pow_le_mono_r; lia);
    nia.
Qed.

Lemma of_int_digit_count (z : Z) :
  Z.abs z < 10 ^ Z.of_N PyStr.int_max_str_digits ->
  (PyStr.digit_count (PyStr.of_int z) <= PyStr.int_max_str_digits)%N.
Proof.
  intros Hlt.
  assert (Hpos : forall p, Z.pos p < 10 ^ Z.of_N PyStr.int_max_str_digits ->
            (PyStr.digit_count (NilZero.string_of_uint (Pos.to_uint p))
             <= PyStr.int_max_str_digits)%N).
  { intros p Hp.
    replace (NilZero.string_of_uint (Pos.to_uint p))
      with (NilEmpty.string_of_uint (Pos.to_uint p)).
    2:{ pose proof (DecimalPos.Unsigned.to_uint_nonnil p).
        now destruct (Pos.to_uint p). }
    rewrite digit_count_of_uint.
    pose proof (nb_digits_to_uint p (N.to_nat PyStr.int_max_str_digits)) as Hb.
    rewrite N_nat_Z in Hb. specialize (Hb Hp). lia. }
  unfold PyStr.of_int. destruct z as [|p|p]; cbn [Z.to_int NilZero.string_of_int].
  - now vm_compute.
  - apply Hpos. exact Hlt.
  - change (PyStr.digit_count (String "-" ?s)) with (PyStr.digit_count s).
    apply Hpos. exact Hlt.
Qed.

(** ** The selection loop, further *)

(** X1. However [get_user_choice] ends, it has only read a non-empty
    prefix of the waiting lines and written one prompt per line read; what
    it returns is a member of the menu (so an empty menu never returns);
    the only exceptions that leave it are [SystemExit 0] and, once every
    line is used up and one more prompt is written, [EOFError]. *)
Theorem get_user_choice_loop_outcome (configs : list config) (lines : list string) :
  let '(out, r, rest) := get_user_choice_loop configs lines in
  match r with
  | Ok c =>
      In c configs
      /\ exists used, used <> [] /\ lines = (used ++ rest)%list
                      /\ List.length (filter is_prompt out) = List.length used
  | Raise e =>
      (e = SystemExit 0
       /\ exists used, used <> [] /\ lines = (used ++ rest)%list
                       /\ List.length (filter is_prompt out) = List.length used)
      \/ (e = EOFError /\ rest = []
          /\ List.length (filter is_prompt out) = S (List.length lines))
  end.
Proof.
  induction lines as [|line rest0 IH]; cbn [get_user_choice_loop].
  - right. repeat split.
  - destruct (PyStr.lower (PyStr.strip line) =? "q")%string.
    { left. split; [reflexivity|]. exists [line]. repeat split. discriminate. }
    assert (Hrec :
      forall msg,
        let '(out, r, rest) :=
          (let '(out, r, rest') := get_user_choice_loop configs rest0 in
           (Prompt (choice_prompt configs) :: Print msg :: out, r, rest')) in
        match r with
        | Ok c =>
            In c configs
            /\ exists used, used <> [] /\ line :: rest0 = (used ++ rest)%list
                 /\ List.length (filter is_prompt out) = List.length used
        | Raise e =>
            (e = SystemExit 0
             /\ exists used, used <> [] /\ line :: rest0 = (used ++ rest)%list
                  /\ List.length (filter is_prompt out) = List.length used)
            \/ (e = EOFError /\ rest = []
                /\ List.length (filter is_prompt out) = S (List.length (line :: rest0)))
        end).
    { intros msg.
      destruct (get_user_choice_loop configs rest0) as [[out r] rest'].
      destruct r as [c|e].
      - destruct IH as (Hin & used & Hne & -> & Hl). split; [exact Hin|].
        exists (line :: used). repeat split; [discriminate|].
        simpl. now rewrite Hl.
      - destruct IH as [(-> & used & Hne & -> & Hl) | (-> & -> & Hl)].
        + left. split; [reflexivity|]. exists (line :: used).
          repeat split; [discriminate|]. simpl. now rewrite Hl.
        + right. repeat split. simpl. now rewrite Hl. }
    destruct (PyStr.int (PyStr.strip line)) as [n|]; [|apply Hrec].
    destruct ((1 <=? n) && (n <=? len configs)) eqn:E; [|apply Hrec].
    apply andb_prop in E. destruct E as [E1 E2]. apply Z.leb_le in E1, E2.
    destruct (len_nth_error configs n (conj E1 E2)) as (c & Hc). rewrite Hc.
    split; [eapply nth_error_In; eauto|].
    exists [line]. repeat split. discriminate.
Qed.

Lemma rejected_step (configs : list config) (line : string) (rest : list string) :
  rejected configs line ->
  exists msg, get_user_choice_loop configs (line :: rest) = reprompt configs msg rest.
Proof.
  intros [Hq [Hi | (n & Hi & Hr)]]; eexists.
  - now apply loop_not_int.
  - eapply loop_out_of_range; eauto.
Qed.

(** X2. Rejected lines only cost a prompt and a message each: after any
    run of rejected lines the loop is where a fresh call on the lines that
    follow would be, so the first acceptable line decides. *)
Theorem get_user_choice_skips_rejected
  (configs : list config) (bads lines : list string) :
  Forall (rejected configs) bads ->
  exists msgs,
    List.length msgs = List.length bads
    /\ get_user_choice_loop configs (bads ++ lines)
       = let '(out, r, rest) := get_user_choice_loop configs lines in
         ((flat_map (fun m => [Prompt (choice_prompt configs); Print m]) msgs
           ++ out)%list, r, rest).
Proof.
  induction 1 as [|bad bads Hbad _ IH].
  - exists []. split; [reflexivity|]. simpl.
    now destruct (get_user_choice_loop configs lines) as [[out r] rest].
  - destruct IH as (msgs & Hl & E).
    destruct (rejected_step configs bad (bads ++ lines) Hbad) as (msg & Es).
    exists (msg :: msgs). split; [simpl; now rewrite Hl|].
    simpl app. rewrite Es. unfold reprompt. rewrite E.
    now destruct (get_user_choice_loop configs lines) as [[out r] rest].
Qed.

Lemma get_user_choice_skips_rejected_witness :
  Forall (rejected [sample_a; sample_b]) ["0"; "two"; " 3"]
  /\ exists msgs,
       List.length msgs = 3%nat
       /\ get_user_choice_loop [sample_a; sample_b] ["0"; "two"; " 3"; "2"; "1"]
          = ((flat_map (fun m => [Prompt (choice_prompt [sample_a; sample_b]); Print m])
                msgs
              ++ [Prompt (choice_prompt [sample_a; sample_b])])%list,
             Ok sample_b, ["1"]).
Proof.
  assert (H : Forall (rejected [sample_a; sample_b]) ["0"; "two"; " 3"]).
  { constructor; [|constructor; [|constructor; [|constructor]]];
      (split; [discriminate|]).
    - right. exists 0. split; [reflexivity | unfold len; simpl; lia].
    - now left.
    - right. exists 3. split; [reflexivity | unfold len; simpl; lia]. }
  split; [exact H|].
  exact (get_user_choice_skips_rejected [sample_a; sample_b] _ ["2"; "1"] H).
Defined.

(** X3. The number the menu prints in front of an entry, typed back as it
    stands, selects that entry: for the entry at position [i] the menu has
    the line "i+1. name" and [get_user_choice] on the decimal text of
    [i+1] returns that entry, leaving the later lines unread.  This holds
    for every menu short enough for its numbers to stay within the digits
    [int] reads, that is of fewer than 10^4300 entries. *)
Theorem menu_number_selects
  (configs : list config) (i : nat) (c : config) (rest : list string) (st : state) :
  len configs < 10 ^ 4300 ->
  nth_error configs i = Some c ->
  let number := PyStr.of_int (Z.of_nat i + 1) in
  In (Print (number ++ ". " ++ name c)) (fst (fst (display_configs configs st)))
  /\ get_user_choice_loop configs (number :: rest)
     = ([Prompt (choice_prompt configs)], Ok c, rest).
Proof.
  intros Hsmall Hc. cbv zeta. split.
  - rewrite display_configs_run. cbn [fst]. right. right.
    apply in_or_app. left.
    apply in_map_iff. exists (Z.of_nat i + 1, c). split; [reflexivity|].
    apply (nth_error_In _ i). rewrite enumerate_nth, Hc. cbn [option_map].
    now rewrite Z.add_comm.
  - assert (Hr : 1 <= Z.of_nat i + 1 <= len configs).
    { unfold len. assert (i < List.length configs)%nat
        by (apply nth_error_Some; congruence). lia. }
    assert (Hi : PyStr.int (PyStr.strip (PyStr.of_int (Z.of_nat i + 1)))
                 = Some (Z.of_nat i + 1)).
    { rewrite int_strip. apply int_of_int. apply of_int_digit_count.
      change (Z.of_N PyStr.int_max_str_digits) with 4300. lia. }
    destruct (loop_in_range configs _ rest _ Hi Hr) as (c' & Hc' & E).
    replace (Z.to_nat (Z.of_nat i + 1 - 1)) with i in Hc' by lia.
    congruence.
Qed.

Lemma menu_number_selects_witness :
  len [sample_a; sample_b] < 10 ^ 4300
  /\ nth_error [sample_a; sample_b] 1 = Some sample_b
  /\ In (Print "2. b") (fst (fst (display_configs [sample_a; sample_b] sample_state)))
  /\ get_user_choice_loop [sample_a; sample_b] ["2"; "q"]
     = ([Prompt (choice_prompt [sample_a; sample_b])], Ok sample_b, ["q"]).
Proof.
  assert (Hsmall : len [sample_a; sample_b] < 10 ^ 4300)
    by (apply Z.ltb_lt; vm_compute; reflexivity).
  split; [exact Hsmall|]. split; [reflexivity|].
  exact (menu_number_selects [sample_a; sample_b] 1 sample_b ["q"] sample_state
           Hsmall eq_refl).
Defined.

(** ** [run_experiment] and [main], further *)

Lemma run_experiment_acts (env : Env) (exe : PurePath) (c : config) (st : state) :
  filter acts (fst (fst (run_experiment env exe c st)))
  = [ Chdir (get_project_root env);
      Spawn (get_project_root env) (command_line exe c) ].
Proof.
  unfold run_experiment, command_line. run_monad.
  destruct (spawn env (get_project_root env) _) as [rc| |];
    [destruct (rc =? 0)|..]; reflexivity.
Qed.

(** X5. [run_experiment] catches [CalledProcessError] and
    [FileNotFoundError]: it returns a boolean unless the spawn failed with
    another operating-system error, which is the one exception that leaves
    it.  In every case, that one included, it reads nothing from standard
    input and leaves the working directory at the project root: the
    directory it started from is not restored. *)
Theorem run_experiment_escapes (env : Env) (exe : PurePath) (c : config) (st : state) :
  let '(out, r, st') := run_experiment env exe c st in
  st' = mkState (stdin st) (get_project_root env)
  /\ ((exists b, r = Ok b) \/ r = Raise OSError)
  /\ (r = Raise OSError
      <-> spawn env (get_project_root env) (command_line exe c) = SpawnError).
Proof.
  pose proof (run_experiment_result env exe c st) as [Hr Hs].
  destruct (run_experiment env exe c st) as [[out r] st'].
  cbn [fst snd] in Hr, Hs. subst r st'. split; [reflexivity|].
  destruct (spawn env (get_project_root env) (command_line exe c)).
  - split; [left; eauto|]. split; discriminate.
  - split; [left; eauto|]. split; discriminate.
  - split; [now right|]. split; reflexivity.
Qed.

Lemma loop_no_acts (configs : list config) (lines : list string) :
  filter acts (fst (fst (get_user_choice_loop configs lines))) = [].
Proof.
  induction lines as [|line rest IH]; cbn [get_user_choice_loop]; [reflexivity|].
  destruct (PyStr.lower (PyStr.strip line) =? "q")%string; [reflexivity|].
  destruct (PyStr.int (PyStr.strip line)) as [n|].
  - destruct ((1 <=? n) && (n <=? len configs)).
    + now destruct (nth_error configs _).
    + now destruct (get_user_choice_loop configs rest) as [[out r] rest'].
  - now destruct (get_user_choice_loop configs rest) as [[out r] rest'].
Qed.

Lemma filter_acts_prints {A} (f : A -> string) (l : list A) :
  filter acts (map (fun x => Print (f x)) l) = [].
Proof. induction l; simpl; auto. Qed.

(** The acts of a whole run and the directory it ends in. *)
Lemma main_run_acts (env : Env) (lines : list string) :
  (let '(out, _, st') := run env lines in (filter acts out, cwd st'))
  = match get_executable_path env with
    | None => ([], start_dir env)
    | Some exe =>
        if negb (path_exists env (yaml_dir env)) then ([], start_dir env)
        else
          match get_yaml_configs env with
          | Raise _ | Ok [] => ([], start_dir env)
          | Ok configs =>
              match get_user_choice_loop configs lines with
              | (_, Raise _, _) => ([], start_dir env)
              | (_, Ok c, _) =>
                  ([ Chdir (get_project_root env);
                     Spawn (get_project_root env) (command_line exe c) ],
                   get_project_root env)
              end
          end
    end.
Proof.
  unfold run, main. fold (yaml_dir env).
  destruct (get_executable_path env) as [exe|].
  - destruct (path_exists env (yaml_dir env)); cbn [negb].
    + destruct (get_yaml_configs env) as [[|c0 configs]|e].
      * run_monad. now destruct lines.
      * unfold bind at 1. unfold print at 1.
        unfold bind at 1. unfold print at 1.
        unfold bind at 1. unfold lift at 1.
        unfold bind at 1. rewrite display_configs_run.
        unfold bind at 1. unfold get_user_choice. cbn [stdin cwd].
        pose proof (loop_no_acts (c0 :: configs) lines) as Hl.
        destruct (get_user_choice_loop (c0 :: configs) lines) as [[out r] rest].
        cbn [fst] in Hl.
        destruct r as [c|e].
        -- unfold bind at 1.
           pose proof (run_experiment_result env exe c (mkState rest (start_dir env)))
             as [Hr Hs].
           pose proof (run_experiment_acts env exe c (mkState rest (start_dir env)))
             as Ha.
           destruct (run_experiment env exe c (mkState rest (start_dir env)))
             as [[out' r'] st'].
           cbn [fst snd] in Hr, Hs, Ha. subst r' st'.
           destruct (spawn env (get_project_root env) (command_line exe c));
             run_monad; destruct rest; cbn [fst snd cwd];
             rewrite ?app_nil_r; cbn [app filter acts];
             rewrite !filter_app, filter_acts_prints, Hl, Ha; reflexivity.
        -- cbn [fst snd cwd app filter acts].
           rewrite !filter_app, filter_acts_prints, Hl. reflexivity.
      * reflexivity.
    + run_monad. now destruct lines.
  - run_monad. now destruct lines.
Qed.

(** X4. A run acts on the process at most once and only for a selection:
    either it neither changes directory nor spawns anything and ends in the
    directory it started in, or it changes to the project root and spawns,
    once, the executable that [get_executable_path] resolved (an existing
    candidate) on an entry that [get_yaml_configs] returned, and ends in
    the project root.  After a start-up failure, and whenever the run ends
    by [sys.exit] (the failures and the quit letter), nothing was spawned. *)
Theorem main_spawns_only_selected (env : Env) (lines : list string) :
  let done := filter acts (trace env lines) in
  let final := cwd (snd (run env lines)) in
  ((done = [] /\ final = start_dir env)
   \/ exists exe configs c,
        get_executable_path env = Some exe /\ path_exists env exe = true
        /\ get_yaml_configs env = Ok configs /\ In c configs
        /\ done = [ Chdir (get_project_root env);
                    Spawn (get_project_root env) (command_line exe c) ]
        /\ final = get_project_root env)
  /\ (start_failure env -> done = [])
  /\ (forall code, outcome env lines = Raise (SystemExit code) -> done = []).
Proof.
  cbv zeta. pose proof (main_run_acts env lines) as Ha.
  pose proof (main_outcome env lines) as Ho.
  unfold trace, outcome in *. unfold start_failure.
  destruct (run env lines) as [[out r] st']. cbn [fst snd] in *.
  destruct (get_executable_path env) as [exe|] eqn:Ee.
  2:{ injection Ha as -> ->. repeat split; auto. }
  destruct (path_exists env (yaml_dir env)) eqn:Ex; cbn [negb] in Ha, Ho.
  2:{ injection Ha as -> ->. repeat split; auto. }
  destruct (get_yaml_configs env) as [[|c0 configs]|e] eqn:Ec.
  1,3: injection Ha as -> ->; repeat split; auto.
  pose proof (loop_result (c0 :: configs) lines) as Hl.
  destruct (get_user_choice_loop (c0 :: configs) lines) as [[out' r'] rest].
  destruct r' as [c|e].
  - injection Ha as -> ->. split; [|split].
    + right. exists exe, (c0 :: configs), c. repeat split; auto.
      unfold get_executable_path in Ee. now apply find_some in Ee.
    + intros [H | [H | H]]; discriminate.
    + intros code H. rewrite Ho in H.
      destruct (spawn env _ _); try discriminate; now destruct rest.
  - injection Ha as -> ->. repeat split; auto.
Qed.

(** X10. With nothing to read on standard input every run ends the same
    way, whatever the directory tree holds: [EOFError] escapes from the
    first [input] reached (the pause of a start-up failure, or the
    selection prompt), the status is 1 and nothing was spawned. *)
Theorem main_closed_stdin (env : Env) :
  outcome env [] = Raise EOFError
  /\ exit_status (outcome env []) = 1
  /\ filter acts (trace env []) = [].
Proof.
  assert (Ho : outcome env [] = Raise EOFError).
  { rewrite main_outcome.
    destruct (get_executable_path env); [|reflexivity].
    destruct (negb (path_exists env (yaml_dir env))); [reflexivity|].
    now destruct (get_yaml_configs env) as [[|c0 configs]|e] eqn:Ec;
      [| |destruct (get_yaml_configs_total env) as (cs & E); congruence]. }
  split; [exact Ho|]. split; [now rewrite Ho|].
  pose proof (main_run_acts env []) as Ha. unfold trace.
  destruct (run env []) as [[out r] st']. cbn [fst].
  destruct (get_executable_path env); [|now injection Ha].
  destruct (negb (path_exists env (yaml_dir env))); [now injection Ha|].
  destruct (get_yaml_configs env) as [[|c0 configs]|e]; now injection Ha.
Qed.

(** ** Discovery, further *)

Lemma NoDup_map_inj {A B} (f : A -> B) (l : list A) :
  (forall x y, In x l -> In y l -> f x = f y -> x = y) ->
  NoDup l -> NoDup (map f l).
Proof.
  intros Hinj. induction 1 as [|a l Ha Hl IH]; simpl; constructor.
  - intros Hin. apply in_map_iff in Hin. destruct Hin as (x & E & Hx).
    apply Hinj in E; [subst; contradiction | now right | now left].
  - apply IH. intros x y Hx Hy. apply Hinj; now right.
Qed.

Lemma NoDup_map_filter {A B} (f : A -> B) (k : A -> bool) (l : list A) :
  NoDup (map f l) -> NoDup (map f (filter k l)).
Proof.
  induction l as [|a l IH]; simpl; intros H; [constructor|].
  inversion H as [|? ? Ha Hl]; subst.
  destruct (k a); [|now apply IH]. simpl. constructor; [|now apply IH].
  intros Hin. apply Ha. apply in_map_iff in Hin. destruct Hin as (x & E & Hx).
  apply filter_In in Hx. apply in_map_iff. exists x. tauto.
Qed.

Lemma flat_map_heads_NoDup
  (sub : string * node -> list (list string)) (es : list (string * node)) :
  NoDup (map fst es) ->
  (forall e, In e es -> NoDup (sub e)) ->
  NoDup (flat_map (fun e => map (cons (fst e)) (sub e)) es).
Proof.
  induction es as [|e es IH]; simpl; intros Hn Hs; [constructor|].
  inversion Hn as [|? ? Ha Hl]; subst.
  apply NoDup_app.
  - apply NoDup_map_inj; [|apply Hs; now left].
    intros x y _ _ E. now injection E.
  - apply IH; [exact Hl|]. intros e' He'. apply Hs. now right.
  - intros a Hin1 Hin2. apply in_map_iff in Hin1. destruct Hin1 as (r & <- & _).
    apply in_flat_map in Hin2. destruct Hin2 as (e' & He' & Hin2).
    apply in_map_iff in Hin2. destruct Hin2 as (r' & E & _).
    injection E as E _. apply Ha. rewrite <- E. now apply in_map.
Qed.

Lemma rglob_rel_NoDup (keep : string -> bool) (t : node) :
  wf_tree t -> NoDup (rglob_rel keep t).
Proof.
  induction t as [|es IH] using node_ind; intros Hwf; [constructor|].
  inversion Hwf as [|es' Hn Hc]; subst. rewrite Forall_forall in IH.
  cbn [rglob_rel]. apply NoDup_app.
  - rewrite <- (map_map fst (fun n => [n])).
    apply NoDup_map_inj; [intros x y _ _ E; now injection E|].
    now apply NoDup_map_filter.
  - apply flat_map_heads_NoDup; [exact Hn|]. intros e He. apply IH; auto.
  - intros a Hin1 Hin2. apply in_map_iff in Hin1. destruct Hin1 as (e & <- & _).
    apply in_flat_map in Hin2. destruct Hin2 as (e' & He' & Hin2).
    apply in_map_iff in Hin2. destruct Hin2 as (r' & E & Hr').
    injection E as _ E. subst r'.
    apply rglob_rel_spec in Hr'. destruct Hr' as [Hr' _]. inversion Hr'.
Qed.

Lemma find_entry_In (n : string) (es : list (string * node)) (t : node) :
  find_entry n es = Some t -> In (n, t) es.
Proof.
  induction es as [|[m t'] es IH]; simpl; [discriminate|].
  destruct (n =? m)%string eqn:E.
  - apply String.eqb_eq in E. intros [= ->]. left. now subst.
  - intros H. right. now apply IH.
Qed.

Lemma wf_lookup (t t' : node) (ps : list string) :
  wf_tree t -> lookup t ps = Some t' -> wf_tree t'.
Proof.
  revert t. induction ps as [|p ps IH]; intros t Hwf; simpl.
  - now intros [= <-].
  - destruct t as [|es]; [discriminate|].
    destruct (find_entry p es) as [t0|] eqn:E; [|discriminate].
    apply IH. inversion Hwf as [|es' _ Hc]; subst.
    apply (Hc (p, t0)). now apply find_entry_In.
Qed.

Lemma yaml_not_yml (s s' : string) : (s ++ ".yaml")%string <> (s' ++ ".yml")%string.
Proof.
  revert s'. induction s as [|c s IH]; intros s' E.
  - destruct s' as [|c1 [|c2 [|c3 [|c4 [|c5 [|c6 s']]]]]]; discriminate.
  - destruct s' as [|c' s'].
    + simpl in E. injection E as _ E.
      destruct s as [|c1 [|c2 [|c3 [|c4 s]]]]; discriminate.
    + simpl in E. injection E as _ E. now apply IH in E.
Qed.

Lemma below_yaml_dir_inj (env : Env) (rel rel' : list string) :
  below_yaml_dir env rel = below_yaml_dir env rel' -> rel = rel'.
Proof. unfold below_yaml_dir. intros [= E]. now apply app_inv_head in E. Qed.

Lemma yaml_files_NoDup (env : Env) : wf_tree (fs env) -> NoDup (yaml_files env).
Proof.
  intros Hwf. unfold yaml_files. cbn [flat_map]. rewrite app_nil_r.
  assert (Hg : forall pattern, NoDup (rglob env (yaml_dir env) pattern)).
  { intros pattern. unfold rglob.
    destruct (lookup (fs env) (parts (yaml_dir env))) as [t|] eqn:Et; [|constructor].
    apply NoDup_map_inj.
    - intros x y _ _ E. now apply (below_yaml_dir_inj env).
    - apply rglob_rel_NoDup. eapply wf_lookup; eauto. }
  apply NoDup_app; auto.
  intros p H1 H2. apply rglob_spec in H1, H2.
  destruct H1 as (t & rel & _ & _ & Hk & ->).
  destruct H2 as (t' & rel' & _ & _ & Hk' & E).
  apply below_yaml_dir_inj in E. subst rel'.
  apply fnmatch_yaml in Hk. apply fnmatch_yml in Hk'.
  destruct Hk as (s & Es). destruct Hk' as (s' & Es').
  rewrite Es in Es'. now apply yaml_not_yml in Es'.
Qed.

(** Two sorted lists with the same elements are the same list. *)
Lemma StronglySorted_perm_eq (l1 l2 : list PurePath) :
  StronglySorted path_le l1 -> StronglySorted path_le l2 ->
  Permutation l1 l2 -> l1 = l2.
Proof.
  revert l2. induction l1 as [|a l1 IH]; intros l2 H1 H2 Hp.
  - now apply Permutation_nil in Hp.
  - destruct l2 as [|b l2]; [now apply Permutation_sym, Permutation_nil in Hp|].
    inversion H1 as [|? ? Hs1 Hf1]; inversion H2 as [|? ? Hs2 Hf2]; subst.
    rewrite Forall_forall in Hf1, Hf2.
    assert (a = b).
    { assert (Hb : In b (a :: l1))
        by (apply (Permutation_in _ (Permutation_sym Hp)); now left).
      assert (Ha : In a (b :: l2)) by (apply (Permutation_in _ Hp); now left).
      destruct Hb as [Hb | Hb]; [auto|]. destruct Ha as [Ha | Ha]; [auto|].
      apply path_le_antisym; auto. }
    subst b. f_equal. apply IH; auto. now apply Permutation_cons_inv in Hp.
Qed.

Lemma sorted_canonical (l1 l2 : list PurePath) :
  Permutation l1 l2 -> sorted l1 = sorted l2.
Proof.
  intros Hp. apply StronglySorted_perm_eq; try apply sorted_StronglySorted.
  rewrite !sorted_perm. exact Hp.
Qed.

Lemma map_eq_inj {A B} (f g : A -> B) (l l' : list A) :
  map f l = map g l' -> (forall x y, f x = g y -> x = y) -> l = l'.
Proof.
  intros E Hinj. revert l' E.
  induction l as [|a l IH]; intros [|b l'] E; try discriminate; auto.
  cbn [map] in E. injection E as E1 E2. f_equal; auto.
Qed.

(** X6. In a directory tree whose directories list each name once, no file
    is discovered twice: the entries of [get_yaml_configs] have pairwise
    distinct ['full_path']s and pairwise distinct ['path']s, so every
    number of the menu stands for a file of its own. *)
Theorem get_yaml_configs_no_duplicates (env : Env) (configs : list config) :
  wf_tree (fs env) -> get_yaml_configs env = Ok configs ->
  NoDup (map full_path configs) /\ NoDup (map path configs) /\ NoDup configs.
Proof.
  intros Hwf E. destruct (get_yaml_configs_entries env) as (rels & Es & E').
  rewrite E' in E. injection E as <-.
  assert (Hf : NoDup (map (below_yaml_dir env) rels)).
  { rewrite <- Es. apply (Permutation_NoDup (Permutation_sym (sorted_perm _))).
    now apply yaml_files_NoDup. }
  pose proof (NoDup_map_inv _ _ Hf) as Hr.
  split; [now rewrite map_full_path_entries|]. split.
  - rewrite map_map. cbn [path entry_of].
    apply NoDup_map_inj; [|exact Hr]. intros x y _ _ [= H]. exact H.
  - apply NoDup_map_inj; [|exact Hr]. intros x y _ _ H.
    apply (f_equal path) in H. now injection H.
Qed.

(** X7. The discovery does not depend on the order in which directories
    list their entries: two trees that list each name once and have the
    same entries below [resources/exps], seen from the same script
    location, give the same list of dictionaries in the same order. *)
Theorem get_yaml_configs_listing_order (env env' : Env) :
  script_file env = script_file env' ->
  wf_tree (fs env) -> wf_tree (fs env') ->
  (forall rel, yaml_dir_entry env rel <-> yaml_dir_entry env' rel) ->
  get_yaml_configs env = get_yaml_configs env'.
Proof.
  intros Hs Hwf Hwf' Hsame.
  assert (Hy : yaml_dir env = yaml_dir env')
    by (unfold yaml_dir, get_project_root; now rewrite Hs).
  assert (Hb : forall rel, below_yaml_dir env rel = below_yaml_dir env' rel)
    by (intros rel; unfold below_yaml_dir; now rewrite Hy).
  assert (Hp : Permutation (yaml_files env) (yaml_files env')).
  { apply NoDup_Permutation; try now apply yaml_files_NoDup.
    intros p. rewrite !yaml_files_spec. split.
    - intros (t & rel & Et & He & Hn & ->).
      destruct (proj1 (Hsame rel)) as (t' & Et' & He'); [now exists t|].
      exists t', rel. now rewrite Hb.
    - intros (t & rel & Et & He & Hn & ->).
      destruct (proj2 (Hsame rel)) as (t' & Et' & He'); [now exists t|].
      exists t', rel. now rewrite Hb. }
  destruct (get_yaml_configs_entries env) as (rels & Es & E).
  destruct (get_yaml_configs_entries env') as (rels' & Es' & E').
  rewrite E, E'. f_equal.
  rewrite (sorted_canonical _ _ Hp), Es' in Es.
  assert (rels = rels').
  { symmetry. apply (map_eq_inj _ _ _ _ Es). intros x y H.
    rewrite <- Hb in H. now apply below_yaml_dir_inj in H. }
  subst rels'. apply map_ext. intros rel. unfold entry_of. now rewrite Hb.
Qed.

Lemma wf_flat (es : list (string * node)) :
  NoDup (map fst es) -> (forall e, In e es -> snd e = File) -> wf_tree (Dir es).
Proof.
  intros Hn Hf. constructor; [exact Hn|].
  intros e He. rewrite (Hf e He). constructor.
Qed.

Lemma sample_tree_wf (resources : list (string * node)) :
  wf_tree (Dir resources) -> wf_tree (sample_tree resources).
Proof.
  intros Hr. unfold sample_tree.
  repeat first
    [ assumption
    | apply wf_file
    | apply wf_dir;
      [ repeat constructor; simpl; intuition discriminate
      | let e := fresh "e" in let He := fresh "He" in
        intros e He; simpl in He;
        repeat (destruct He as [<- | He]; [cbn [snd]|]); [..|destruct He] ] ].
Qed.

Lemma sample_exps_wf (es : list (string * node)) :
  Permutation es [("b.yaml", File); ("a.yml", File); ("c.txt", File)] ->
  wf_tree (sample_tree [("exps", Dir es)]).
Proof.
  intros Hp. apply sample_tree_wf. apply wf_dir.
  - simpl. repeat constructor; simpl; intuition discriminate.
  - intros e [<- | []]. simpl. apply wf_flat.
    + apply (Permutation_NoDup (Permutation_sym (Permutation_map fst Hp))).
      simpl. repeat constructor; simpl; intuition discriminate.
    + intros e He. apply (Permutation_in _ Hp) in He. simpl in He.
      destruct He as [<- | [<- | [<- | []]]]; reflexivity.
Qed.

Lemma entry_at_same_entries (es es' : list (string * node)) (rel : list string) :
  (forall e, In e es -> In e es') -> entry_at (Dir es) rel -> entry_at (Dir es') rel.
Proof.
  intros Hi He. inversion He as [? n t Hin | ? n t rel' Hin He']; subst.
  - eapply entry_here; eauto.
  - eapply entry_below; eauto.
Qed.

Lemma get_yaml_configs_no_duplicates_witness :
  wf_tree (fs (sample_env [("exps", sample_exps)] (Exited 0)))
  /\ get_yaml_configs (sample_env [("exps", sample_exps)] (Exited 0))
     = Ok [sample_a; sample_b]
  /\ NoDup (map full_path [sample_a; sample_b])
  /\ NoDup (map path [sample_a; sample_b])
  /\ NoDup [sample_a; sample_b].
Proof.
  assert (Hwf : wf_tree (fs (sample_env [("exps", sample_exps)] (Exited 0))))
    by (apply sample_exps_wf; reflexivity).
  split; [exact Hwf|]. split; [reflexivity|].
  exact (get_yaml_configs_no_duplicates
           (sample_env [("exps", sample_exps)] (Exited 0))
           [sample_a; sample_b] Hwf eq_refl).
Defined.

Lemma get_yaml_configs_listing_order_witness :
  get_yaml_configs
    (sample_env [("exps", Dir [("b.yaml", File); ("a.yml", File); ("c.txt", File)])]
                (Exited 0))
  = get_yaml_configs
      (sample_env [("exps", Dir [("c.txt", File); ("a.yml", File); ("b.yaml", File)])]
                  (Exited 0)).
Proof.
  apply get_yaml_configs_listing_order.
  - reflexivity.
  - apply sample_exps_wf. reflexivity.
  - apply sample_exps_wf.
    apply perm_trans with [("a.yml", File); ("c.txt", File); ("b.yaml", File)];
      [apply perm_swap|].
    apply perm_trans with [("a.yml", File); ("b.yaml", File); ("c.txt", File)];
      [apply perm_skip, perm_swap | apply perm_swap].
  - intros rel. split; intros (t & Et & He); vm_compute in Et;
      injection Et as <-; eexists; (split; [reflexivity|]);
      (eapply entry_at_same_entries; [|exact He]);
      intros e Hin; simpl in *; tauto.
Defined.

(** ** Paths as text *)

Lemma join_app (sep : string) (l1 l2 : list string) :
  l1 <> [] -> l2 <> [] ->
  PyStr.join sep (l1 ++ l2) = (PyStr.join sep l1 ++ sep ++ PyStr.join sep l2)%string.
Proof.
  intros H1 H2. induction l1 as [|x l1 IH]; [congruence|].
  destruct l1 as [|y l1].
  - simpl. destruct l2; [congruence | reflexivity].
  - change (PyStr.join sep ((x :: y :: l1) ++ l2))
      with (x ++ sep ++ PyStr.join sep ((y :: l1) ++ l2))%string.
    rewrite IH by discriminate.
    change (PyStr.join sep (x :: y :: l1))
      with (x ++ sep ++ PyStr.join sep (y :: l1))%string.
    now rewrite !string_app_assoc.
Qed.

Lemma str_nonempty_parts (p : PurePath) :
  parts p <> [] -> PurePath.str p = (root p ++ PyStr.join "/" (parts p))%string.
Proof.
  intros H. unfold PurePath.str. destruct (parts p); [congruence|].
  now destruct (root p).
Qed.

(** X8. What the child receives as its argument, as text: for every entry
    that [get_yaml_configs] returned, [str] of ['path'] starts with
    ["exps/"], ends in [.yaml] or [.yml], and appending it to [str] of the
    resources directory and a slash spells ['full_path']. *)
Theorem config_path_text (env : Env) (configs : list config) (c : config) :
  get_yaml_configs env = Ok configs -> In c configs ->
  (exists s, PurePath.str (path c) = ("exps/" ++ s)%string)
  /\ (ends_with (PurePath.str (path c)) ".yaml"
      \/ ends_with (PurePath.str (path c)) ".yml")
  /\ PurePath.str (full_path c)
     = (PurePath.str (resources_dir env) ++ "/" ++ PurePath.str (path c))%string.
Proof.
  intros E Hc.
  destruct (discovered_entry env configs c E Hc) as (t & rel & _ & He & Hy & ->).
  pose proof (entry_at_nonempty _ _ He) as Hne.
  cbn [path full_path entry_of].
  assert (Hs : PurePath.str (mkPath "" ("exps" :: rel))
               = ("exps/" ++ PyStr.join "/" rel)%string).
  { destruct rel as [|x rel]; [congruence | reflexivity]. }
  split; [eexists; exact Hs|]. split.
  - assert (Hl : ends_with (PurePath.str (mkPath "" ("exps" :: rel))) (last rel "")).
    { rewrite Hs. destruct (join_ends_with_last "/" rel Hne) as (s0 & ->).
      exists ("exps/" ++ s0)%string. now rewrite string_app_assoc. }
    destruct Hy as [Hy | Hy]; [left | right]; eapply ends_with_trans; eauto.
  - rewrite below_yaml_dir_resources.
    assert (Hr : parts (resources_dir env) <> []).
    { unfold resources_dir, PurePath.truediv. cbn [parts]. intros H.
      apply app_eq_nil in H. now destruct H. }
    rewrite !str_nonempty_parts; cbn [root parts];
      [|discriminate | exact Hr
       |intros H; apply app_eq_nil in H; destruct H; discriminate].
    rewrite (join_app "/" _ ("exps" :: rel) Hr) by discriminate.
    now rewrite !string_app_assoc.
Qed.

Lemma config_path_text_witness :
  get_yaml_configs (sample_env [("exps", sample_exps)] (Exited 0))
  = Ok [sample_a; sample_b]
  /\ In sample_a [sample_a; sample_b]
  /\ PurePath.str (path sample_a) = "exps/a.yml"
  /\ PurePath.str (full_path sample_a) = "/proj/resources/exps/a.yml".
Proof.
  split; [reflexivity|]. split; [now left|].
  destruct (config_path_text (sample_env [("exps", sample_exps)] (Exited 0))
              [sample_a; sample_b] sample_a eq_refl (or_introl eq_refl))
    as (_ & _ & H).
  split; [reflexivity | exact H].
Defined.

(** ** The project root *)

Lemma parent_truediv (p : PurePath) (s : string) : PurePath.parent (p // s) = p.
Proof.
  unfold PurePath.parent, PurePath.truediv. cbn [root parts].
  rewrite removelast_last. now destruct p.
Qed.

(** X9. [get_project_root] is the directory two levels above the script:
    for a script at [r/d/f] it is [r], whatever [d] and [f] are called, so
    the candidates sit below [r/build] and the configurations below
    [r/resources/exps].  A script path with at most two components leaves
    no component: the project root is then the bare root of that path. *)
Theorem get_project_root_two_levels_up (env : Env) :
  (forall r d f, script_file env = r // d // f ->
     get_project_root env = r
     /\ yaml_dir env = r // "resources" // "exps"
     /\ Forall (fun p => exists rel, p = mkPath (root r) (parts r ++ "build" :: rel))
          (possible_paths env))
  /\ ((List.length (parts (script_file env)) <= 2)%nat ->
      get_project_root env = mkPath (root (script_file env)) []).
Proof.
  split.
  - intros r d f E.
    assert (Hr : get_project_root env = r)
      by (unfold get_project_root; now rewrite E, !parent_truediv).
    split; [exact Hr|]. split; [unfold yaml_dir; now rewrite Hr|].
    unfold possible_paths. rewrite Hr. unfold PurePath.truediv. cbn [root parts].
    repeat constructor; eexists; rewrite <- !app_assoc; reflexivity.
  - intros Hl. unfold get_project_root, PurePath.parent. cbn [root parts].
    destruct (parts (script_file env)) as [|a [|b [|c l]]]; simpl in *;
      try reflexivity; lia.
Qed.

(** ** Start-up failures *)

(** X11. The three start-up checks are tried in the order executable,
    directory, configurations, and the first that fails names the error:
    the line printed right after the banner is the message of that check.
    The run then waits at one "Press Enter to exit..." prompt, reads
    exactly one line, leaves the rest unread and ends by [sys.exit(1)] in
    the directory it started in. *)
Theorem main_start_failure_report (env : Env) (line : string) (rest : list string) :
  start_failure env ->
  let '(out, r, st') := run env (line :: rest) in
  r = Raise (SystemExit 1)
  /\ st' = mkState rest (start_dir env)
  /\ nth_error out 2
     = Some (Print
               (match get_executable_path env with
                | None => "Error: Executable not found"
                | Some _ =>
                    if path_exists env (yaml_dir env)
                    then "No YAML configuration files found"
                    else ("Error: YAML config directory not found: "
                          ++ PurePath.str (yaml_dir env))%string
                end))
  /\ last out (Print "") = Prompt "Press Enter to exit..."
  /\ List.length (filter is_prompt out) = 1%nat.
Proof.
  intros Hf. unfold run, main. fold (yaml_dir env).
  destruct (get_executable_path env) as [exe|] eqn:Ee.
  - destruct (path_exists env (yaml_dir env)) eqn:Ex; cbn [negb].
    + destruct Hf as [H | [H | H]]; try congruence.
      rewrite H. run_monad. repeat split.
    + run_monad. repeat split.
  - run_monad. repeat split.
Qed.

Lemma main_start_failure_report_witness :
  start_failure (sample_env [] (Exited 0))
  /\ let '(out, r, st') := run (sample_env [] (Exited 0)) [""; "later"] in
     r = Raise (SystemExit 1)
     /\ st' = mkState ["later"] (mkPath "/" ["home"])
     /\ nth_error out 2
        = Some (Print "Error: YAML config directory not found: /proj/resources/exps").
Proof.
  assert (Hf : start_failure (sample_env [] (Exited 0)))
    by (right; left; reflexivity).
  split; [exact Hf|].
  pose proof (main_start_failure_report (sample_env [] (Exited 0)) "" ["later"] Hf)
    as H.
  destruct (run (sample_env [] (Exited 0)) [""; "later"]) as [[out r] st'].
  destruct H as (H1 & H2 & H3 & _). auto.
Defined.


(** ** Directories with a YAML name *)

(** The cap on digits at work: 4300 zeros before a 2 are not read as 2. *)
Example int_digit_cap :
  PyStr.int (PyStr.repeat "0" 4299 ++ "2") = Some 2
  /\ PyStr.int (PyStr.repeat "0" 4300 ++ "2") = None.
Proof. split; vm_compute; reflexivity. Qed.

(** C5. [get_yaml_configs] at a [resources/exps] that lists the file
    [a.yml] and the directory [d.yaml]: it returns both, the directory
    after the file, although [d.yaml] is no file; nothing in it tests
    [is_file]. *)
Theorem get_yaml_configs_lists_directory :
  get_yaml_configs (dir_yaml_env [("a.yml", File)]) = Ok [sample_a; sample_d]
  /\ is_file (dir_yaml_env [("a.yml", File)]) (full_path sample_a) = true
  /\ is_file (dir_yaml_env [("a.yml", File)]) (full_path sample_d) = false
  /\ lookup (fs (dir_yaml_env [("a.yml", File)])) (parts (full_path sample_d))
     = Some (Dir []).
Proof. repeat split; reflexivity. Qed.

(** C7. [get_yaml_configs] at a [resources/exps] that holds no file at
    all, only the empty directory [d.yaml]: the result is not empty, it is
    the one entry of that directory, and [main] goes on to spawn the
    executable on it. *)
Theorem get_yaml_configs_directory_only :
  path_exists (dir_yaml_env []) (yaml_dir (dir_yaml_env [])) = true
  /\ (forall t rel,
        lookup (fs (dir_yaml_env [])) (parts (yaml_dir (dir_yaml_env []))) = Some t ->
        lookup t rel <> Some File)
  /\ get_yaml_configs (dir_yaml_env []) = Ok [sample_d]
  /\ filter acts (trace (dir_yaml_env []) ["1"; ""])
     = [ Chdir (mkPath "/" ["proj"]);
         Spawn (mkPath "/" ["proj"])
               ["/proj/build/bin/qiwu-example"; "exps/d.yaml"] ].
Proof.
  split; [reflexivity|]. split; [|split; reflexivity].
  intros t rel Et. vm_compute in Et. injection Et as <-.
  destruct rel as [|p rel]; [discriminate|].
  cbn [lookup find_entry]. destruct (p =? "d.yaml")%string; [|discriminate].
  destruct rel; discriminate.
Qed.
